(** * Mood_Playlist: the mood-inference pipeline, embedded and verified

    A shallow embedding of the Python package [mood_playlist]
    (language.py, mapping.py, emotion_classifier.py, recommender.py,
    service.py) together with the properties its specification states.

    Conventions of the embedding.
    - A Python [str] is the list of its Unicode code points ([list N]).
    - A [dict] whose iteration order is observed (LABEL_MAP, the lexicons,
      the [scores] table) is an association list in insertion order; a
      [dict] that is only read by key or summed (a catalog item, the
      counters of [get_stats]) is a [gmap]; a Python [set] is a [gset].
    - Code that can raise returns an [outcome]; [try]/[except] is written
      as a match on it.
    - Library routines whose tables are not part of the repository
      ([str.lower], [str.upper], [int], langdetect's [detect], the
      transformers pipelines, the draws of [random.shuffle]) are
      parameters.
    - Every [print] of emotion_classifier.py is a call of the parameter
      [py_print], which returns or raises as writing to standard output
      does. *)

From stdpp Require Import base gmap list strings fin_maps.
From Stdlib Require Import ZArith NArith Ascii.

Local Open Scope N_scope.

(** ** Python values *)

Abbreviation pystr := (list N) (only parsing).

(** An ASCII literal as a Python string. *)
Definition ustr (s : string) : pystr :=
  N_of_ascii <$> String.list_ascii_of_string s.
Arguments ustr s%_string.

Inductive exn : Type :=
  | TypeError | IndexError | KeyError | ValueError | AttributeError
  | UnicodeEncodeError.

Inductive outcome (A : Type) : Type :=
  | Ok (a : A)
  | Raise (e : exn).
Arguments Ok {A} a.
Arguments Raise {A} e.

#[global] Instance outcome_ret : MRet outcome := λ A a, Ok a.

#[global] Instance outcome_bind : MBind outcome := λ A B k m,
  match m with
  | Ok a => k a
  | Raise e => Raise e
  end.

(** [try: m except Exception as e: h(e)] *)
Definition try_catch {A} (m : outcome A) (h : exn → outcome A) : outcome A :=
  match m with
  | Ok a => Ok a
  | Raise e => h e
  end.

Definition is_ok {A} (m : outcome A) : Prop :=
  match m with Ok _ => True | Raise _ => False end.

Module PyStr.

(** [str.isspace] on one code point (CPython's [_PyUnicode_IsWhitespace]). *)
Definition isspace (c : N) : bool :=
  ((0x09 <=? c) && (c <=? 0x0D)) || ((0x1C <=? c) && (c <=? 0x1F))
  || (c =? 0x20) || (c =? 0x85) || (c =? 0xA0) || (c =? 0x1680)
  || ((0x2000 <=? c) && (c <=? 0x200A))
  || (c =? 0x2028) || (c =? 0x2029) || (c =? 0x202F) || (c =? 0x205F)
  || (c =? 0x3000).

Fixpoint lstrip (s : pystr) : pystr :=
  match s with
  | [] => []
  | c :: s' => if isspace c then lstrip s' else s
  end.

Definition rstrip (s : pystr) : pystr := reverse (lstrip (reverse s)).

(** [s.strip()] *)
Definition strip (s : pystr) : pystr := rstrip (lstrip s).

(** [s.startswith(p)] *)
Fixpoint startswith (p s : pystr) : bool :=
  match p, s with
  | [], _ => true
  | _ :: _, [] => false
  | a :: p', b :: s' => (a =? b) && startswith p' s'
  end.

(** [w in s] for two strings: [w] occurs as a contiguous substring. *)
Fixpoint contains (w s : pystr) : bool :=
  startswith w s
  || match s with
     | [] => false
     | _ :: s' => contains w s'
     end.

(** [s.split(sep)[-1]] for a one-character separator: what follows the
    last occurrence of [sep], or all of [s] when there is none. *)
Fixpoint until_sep (sep : N) (s : pystr) : pystr :=
  match s with
  | [] => []
  | c :: s' => if c =? sep then [] else c :: until_sep sep s'
  end.

Definition last_field (sep : N) (s : pystr) : pystr :=
  reverse (until_sep sep (reverse s)).

Definition is_ascii (c : N) : Prop := c < 128.

Definition ascii_lower (c : N) : N :=
  if (0x41 <=? c) && (c <=? 0x5A) then c + 32 else c.

(** Truthiness of a string: [bool(s)]. *)
Definition truthy (s : pystr) : bool :=
  match s with [] => false | _ :: _ => true end.

End PyStr.

(** Lookup in an insertion-ordered dictionary: [d.get(k)]. *)
Fixpoint dict_get {V} (d : list (pystr * V)) (k : pystr) : option V :=
  match d with
  | [] => None
  | (k', v) :: d' => if decide (k = k') then Some v else dict_get d' k
  end.


(** [d[k]] *)
Definition dict_getitem {V} (d : list (pystr * V)) (k : pystr) : outcome V :=
  match dict_get d k with
  | Some v => Ok v
  | None => Raise KeyError
  end.

(** [d[k] += 1] *)
Fixpoint dict_incr (k : pystr) (d : list (pystr * nat)) : outcome (list (pystr * nat)) :=
  match d with
  | [] => Raise KeyError
  | (k', v) :: d' =>
      if decide (k = k') then Ok ((k', S v) :: d')
      else d'' ← dict_incr k d'; Ok ((k', v) :: d'')
  end.

(** [for x in xs: s = body(s, x)] where the body may raise. *)
Fixpoint for_each {A S} (xs : list A) (body : S → A → outcome S) (s : S) : outcome S :=
  match xs with
  | [] => Ok s
  | x :: xs' => s' ← body s x; for_each xs' body s'
  end.

(** [max(items, key=lambda x: x[1])]: the running best is replaced only
    by a strictly larger key, ValueError on an empty sequence. *)
Fixpoint max_by_value_from (best : pystr * nat) (items : list (pystr * nat)) : pystr * nat :=
  match items with
  | [] => best
  | x :: rest =>
      if (best.2 <? x.2)%nat then max_by_value_from x rest
      else max_by_value_from best rest
  end.

Definition max_by_value (items : list (pystr * nat)) : outcome (pystr * nat) :=
  match items with
  | [] => Raise ValueError
  | x :: rest => Ok (max_by_value_from x rest)
  end.

(** [l[:limit]] *)
Definition slice_to {A} (limit : Z) (l : list A) : list A :=
  if (limit <? 0)%Z then take (length l - Z.to_nat (- limit)) l
  else take (Z.to_nat limit) l.

(** ** language.py *)

(** The detector either answers at once or hands the cleaned text to
    langdetect's [detect] and decides from its answer ([None] stands for
    LangDetectException). *)
Inductive detection : Type :=
  | Answer (lang : pystr)
  | Consult (cleaned : pystr) (k : option pystr → pystr).

Module LanguageDetector.

Definition supported : gset pystr := {[ ustr "fa"; ustr "en" ]}.

(** The compiled pattern (the character class U+0600 to U+06FF) finds a
    match somewhere in [s]. *)
Definition _persian_pattern (s : pystr) : bool :=
  existsb (λ c, (0x0600 <=? c) && (c <=? 0x06FF)) s.

Definition detect (text : pystr) : detection :=
  let cleaned := PyStr.strip text in
  if negb (PyStr.truthy cleaned) then Answer (ustr "en")
  else if _persian_pattern cleaned then Answer (ustr "fa")
  else Consult cleaned (λ r,
         match r with
         | None => ustr "en"
         | Some lang => if decide (lang ∈ supported) then lang else ustr "en"
         end).

(** Running a detection against a given langdetect. *)
Definition run (langdetect : pystr → option pystr) (d : detection) : pystr :=
  match d with
  | Answer lang => lang
  | Consult cleaned k => k (langdetect cleaned)
  end.

End LanguageDetector.

(** ** mapping.py: constants *)

Definition SUPPORTED_MOODS : gset pystr :=
  {[ ustr "joy"; ustr "sadness"; ustr "anger"; ustr "fear";
     ustr "neutral"; ustr "excitement" ]}.

Definition LABEL_MAP : list (pystr * pystr) :=
  [ (ustr "joy", ustr "joy");
    (ustr "happy", ustr "joy");
    (ustr "happiness", ustr "joy");
    (ustr "love", ustr "joy");
    (ustr "cheerful", ustr "joy");
    (ustr "delighted", ustr "joy");
    (ustr "admiration", ustr "joy");
    (ustr "sad", ustr "sadness");
    (ustr "sadness", ustr "sadness");
    (ustr "grief", ustr "sadness");
    (ustr "sorrow", ustr "sadness");
    (ustr "disappointment", ustr "sadness");
    (ustr "anger", ustr "anger");
    (ustr "angry", ustr "anger");
    (ustr "rage", ustr "anger");
    (ustr "hatred", ustr "anger");
    (ustr "hate", ustr "anger");
    (ustr "annoyance", ustr "anger");
    (ustr "furious", ustr "anger");
    (ustr "fear", ustr "fear");
    (ustr "scared", ustr "fear");
    (ustr "frightened", ustr "fear");
    (ustr "anxious", ustr "fear");
    (ustr "nervous", ustr "fear");
    (ustr "excitement", ustr "excitement");
    (ustr "excited", ustr "excitement");
    (ustr "surprise", ustr "excitement");
    (ustr "surprised", ustr "excitement");
    (ustr "wonder", ustr "excitement");
    (ustr "amazed", ustr "excitement");
    (ustr "enthusiasm", ustr "excitement");
    (ustr "neutral", ustr "neutral");
    (ustr "no emotion", ustr "neutral");
    (ustr "other", ustr "neutral") ].

(** ** recommender.py *)

Module Recommender.

(** Modelled from the spec: the package-level constant SUPPORTED_MOODS
    that recommender.py imports from mood_playlist/__init__.py, a file
    that is not among the sources. The spec's Mood is the closed set
    {joy, sadness, anger, fear, neutral, excitement}, which is also the
    set mapping.py declares under the same name. *)
Definition SUPPORTED_MOODS : gset pystr :=
  {[ ustr "joy"; ustr "sadness"; ustr "anger"; ustr "fear";
     ustr "neutral"; ustr "excitement" ]}.

Record Recommendation : Type := {
  title : pystr;
  creator : pystr;
  type : pystr;
  mood : pystr;
  language : pystr;
}.

(** A catalog item is a JSON object with string values. *)
Abbreviation item := (gmap pystr pystr) (only parsing).

(** The construction of a [Recommendation] from the keyword expansion
    of an item: the generated [__init__] takes exactly the five fields by
    keyword; a missing or an unexpected key is a TypeError. *)
Definition Recommendation_of (it : item) : outcome Recommendation :=
  match it !! ustr "title", it !! ustr "creator", it !! ustr "type",
        it !! ustr "mood", it !! ustr "language" with
  | Some t, Some c, Some ty, Some m, Some l =>
      if decide (size it = 5%nat)
      then Ok {| title := t; creator := c; type := ty; mood := m; language := l |}
      else Raise TypeError
  | _, _, _, _, _ => Raise TypeError
  end.

(** [rec.__dict__] *)
Definition as_dict (r : Recommendation) : item :=
  <[ustr "title" := title r]> (<[ustr "creator" := creator r]>
    (<[ustr "type" := type r]> (<[ustr "mood" := mood r]>
      (<[ustr "language" := language r]> ∅)))).

(** One iteration of the counting loop of [get_stats]. *)
Definition count_item (acc : gmap pystr nat * gmap pystr nat) (it : item)
  : gmap pystr nat * gmap pystr nat :=
  let '(moods, languages) := acc in
  let m := default (ustr "neutral") (it !! ustr "mood") in
  let moods := <[m := (default 0 (moods !! m) + 1)%nat]> moods in
  let l := default (ustr "en") (it !! ustr "language") in
  let languages := <[l := (default 0 (languages !! l) + 1)%nat]> languages in
  (moods, languages).

(** [get_stats]: the pair stands for the dictionary with the two keys
    moods and languages. *)
Definition get_stats (catalog : list item) : gmap pystr nat * gmap pystr nat :=
  foldl count_item (∅, ∅) catalog.

(** [x[i], x[j] = x[j], x[i]] *)
Definition swap {A} (x : list A) (i j : nat) : list A :=
  match x !! i, x !! j with
  | Some a, Some b => <[j := a]> (<[i := b]> x)
  | _, _ => x
  end.

(** [random.shuffle(x)] of the standard library:
    [for i in reversed(range(1, len(x))): j = randbelow(i + 1); swap].
    [draw i] is the random number consumed at index [i]; reducing it
    modulo [i + 1] is [randbelow]'s contract, so that every value in
    [0..i] and no other is possible. *)
Fixpoint shuffle_from {A} (draw : nat → nat) (i : nat) (x : list A) : list A :=
  match i with
  | O => x
  | S i' => shuffle_from draw i' (swap x i (draw i `mod` (i + 1))%nat)
  end.

Definition shuffle {A} (draw : nat → nat) (x : list A) : list A :=
  shuffle_from draw (length x - 1)%nat x.

Definition recommend (catalog : list item) (draw : nat → nat)
    (mood : pystr) (media_type : option pystr) (limit : Z)
    (response_language : option pystr) : outcome (list Recommendation) :=
  let mood := if decide (mood ∈ SUPPORTED_MOODS) then mood else ustr "neutral" in
  (* Filter by mood *)
  let filtered := filter (λ it : item, it !! ustr "mood" = Some mood) catalog in
  (* Filter by media type *)
  let filtered :=
    match media_type with
    | Some mt =>
        if PyStr.truthy mt
        then filter (λ it : item, it !! ustr "type" = Some mt) filtered
        else filtered
    | None => filtered
    end in
  (* Filter by content language *)
  let filtered :=
    if decide (response_language ∈ [Some (ustr "fa"); Some (ustr "en")])
    then filter (λ it : item, it !! ustr "language" = response_language) filtered
    else filtered in
  let filtered := shuffle draw filtered in
  let picks := slice_to limit filtered in
  mapM Recommendation_of picks.

(** The five field names of the dataclass. *)
Definition FIELDS : gset pystr :=
  {[ ustr "title"; ustr "creator"; ustr "type"; ustr "mood"; ustr "language" ]}.

(** An item that has the five fields and no other key. *)
Definition has_exact_fields (it : item) : Prop := dom it = FIELDS.

(** What the three filters of [recommend] let through, for the mood
    already coerced. *)
Definition matches (mood : pystr) (media_type response_language : option pystr)
    (it : item) : bool :=
  bool_decide (it !! ustr "mood" = Some mood)
  && match media_type with
     | Some (c :: mt) => bool_decide (it !! ustr "type" = Some (c :: mt))
     | _ => true
     end
  && (bool_decide (response_language ∉ [Some (ustr "fa"); Some (ustr "en")])
      || bool_decide (it !! ustr "language" = response_language)).

(** [sum(d.values())] of a counter. *)
Definition total (d : gmap pystr nat) : nat :=
  map_fold (λ _ v acc, (v + acc)%nat) 0%nat d.

End Recommender.

(** How many of [keywords] occur as substrings of [txt]. *)
Definition keyword_hits (txt : pystr) (keywords : list pystr) : nat :=
  length (filter (λ w, PyStr.contains w txt = true) keywords).

(** ** emotion_classifier.py: constants and data *)

Definition ARMANEMO_LABELS : gmap Z pystr :=
  list_to_map
    [ (0%Z, ustr "anger"); (1%Z, ustr "fear"); (2%Z, ustr "joy");
      (3%Z, ustr "anger"); (4%Z, ustr "neutral"); (5%Z, ustr "sadness");
      (6%Z, ustr "excitement") ].

Definition ENGLISH_LEXICON : list (pystr * list pystr) :=
  [ (ustr "joy", [ustr "happy"; ustr "joy"; ustr "grateful"; ustr "great";
                  ustr "awesome"; ustr "good"; ustr "love"]);
    (ustr "sadness", [ustr "sad"; ustr "down"; ustr "blue"; ustr "upset";
                      ustr "depressed"; ustr "cry"]);
    (ustr "anger", [ustr "angry"; ustr "mad"; ustr "furious"; ustr "irritated";
                    ustr "rage"; ustr "hate"]);
    (ustr "fear", [ustr "afraid"; ustr "scared"; ustr "anxious"; ustr "worried";
                   ustr "nervous"]);
    (ustr "neutral", [ustr "ok"; ustr "fine"; ustr "meh"; ustr "normal"]);
    (ustr "excitement", [ustr "excited"; ustr "hyped"; ustr "stoked";
                         ustr "thrilled"; ustr "pumped"]) ].

Definition PERSIAN_LEXICON : list (pystr * list pystr) :=
  [ (ustr "joy",
     [[0x062E; 0x0648; 0x0634; 0x062D; 0x0627; 0x0644];
      [0x0634; 0x0627; 0x062F];
      [0x062E; 0x0648; 0x0628];
      [0x0639; 0x0627; 0x0644; 0x06CC];
      [0x0631; 0x0627; 0x0636; 0x06CC];
      [0x0639; 0x0634; 0x0642];
      [0x062E; 0x0646; 0x062F; 0x0647]]);
    (ustr "sadness",
     [[0x063A; 0x0645; 0x06AF; 0x06CC; 0x0646];
      [0x0646; 0x0627; 0x0631; 0x0627; 0x062D; 0x062A];
      [0x0628; 0x06CC; 0x0020; 0x062D; 0x0648; 0x0635; 0x0644; 0x0647];
      [0x062F; 0x0644; 0x06AF; 0x06CC; 0x0631];
      [0x06AF; 0x0631; 0x06CC; 0x0647];
      [0x063A; 0x0635; 0x0647];
      [0x0628; 0x062F; 0x0628; 0x062E; 0x062A]]);
    (ustr "anger",
     [[0x0639; 0x0635; 0x0628; 0x0627; 0x0646; 0x06CC];
      [0x062E; 0x0634; 0x0645];
      [0x062D; 0x0631; 0x0635];
      [0x06A9; 0x0644; 0x0627; 0x0641; 0x0647];
      [0x0645; 0x062A; 0x0646; 0x0641; 0x0631];
      [0x062F; 0x0639; 0x0648; 0x0627]]);
    (ustr "fear",
     [[0x0645; 0x06CC; 0x0020; 0x062A; 0x0631; 0x0633; 0x0645];
      [0x062A; 0x0631; 0x0633];
      [0x0627; 0x0633; 0x062A; 0x0631; 0x0633];
      [0x0646; 0x06AF; 0x0631; 0x0627; 0x0646];
      [0x0648; 0x062D; 0x0634; 0x062A]]);
    (ustr "neutral",
     [[0x0645; 0x0639; 0x0645; 0x0648; 0x0644; 0x06CC];
      [0x0628; 0x062F; 0x0020; 0x0646; 0x06CC; 0x0633; 0x062A];
      [0x0627; 0x0648; 0x06A9; 0x06CC];
      [0x0646; 0x0631; 0x0645; 0x0627; 0x0644];
      [0x0633; 0x0644; 0x0627; 0x0645]]);
    (ustr "excitement",
     [[0x0647; 0x06CC; 0x062C; 0x0627; 0x0646];
      [0x0645; 0x062A; 0x062D; 0x0645; 0x0633];
      [0x0630; 0x0648; 0x0642];
      [0x0627; 0x0646; 0x0631; 0x0698; 0x06CC];
      [0x0628; 0x0627; 0x062D; 0x0627; 0x0644]]) ].

#[local] Set Warnings "-register-all".

(** What a transformers pipeline may hand back: strings, dictionaries,
    lists, and anything else (scores, None). *)
Inductive pyval : Type :=
  | PyStr (s : pystr)
  | PyDict (d : list (pystr * pyval))
  | PyList (l : list pyval)
  | PyOther.

Definition is_dict (v : pyval) : bool :=
  match v with PyDict _ => true | _ => false end.

(** [v[0]] *)
Definition getitem0 (v : pyval) : outcome pyval :=
  match v with
  | PyList (x :: _) => Ok x
  | PyList [] => Raise IndexError
  | PyStr (c :: _) => Ok (PyStr [c])
  | PyStr [] => Raise IndexError
  | PyDict _ => Raise KeyError
  | PyOther => Raise TypeError
  end.

Record TextEmotionClassifier : Type := {
  use_transformers : bool;
  pipelines : gmap pystr (pystr → outcome (list pyval));
  id2label : gmap pystr (gmap Z pystr);
}.

Definition DEFAULT_MODELS : list (pystr * pystr) :=
  [ (ustr "en", ustr "bhadresh-savani/distilbert-base-uncased-emotion");
    (ustr "fa", ustr "Negark/distilbert-fa-armanemo") ].

(** What loading one model yields: the pipeline and the id2label table of
    the model's config, when the model has a config with one. *)
Record loaded_pipeline : Type := {
  pipe : pystr → outcome (list pyval);
  config_id2label : option (gmap Z pystr);
}.

(** The world around the classifier at start-up: whether transformers can
    be imported, and what [_load_patched_pipeline(model_name, lang)], which
    downloads the model, rewrites its tokenizer configuration on disk and
    builds the pipeline, comes back with. *)
Record startup : Type := {
  transformers_importable : bool;
  _load_patched_pipeline : pystr → pystr → outcome loaded_pipeline;
}.

(** What the package writes to standard output: one constructor for each
    [print] of emotion_classifier.py, with the values its text is formatted
    from. *)
Inductive message : Type :=
  | TransformersNotFound
  | LoadingModels
  | LoadingModel (lang model_name : pystr)
  | AppliedManualLabels (lang : pystr) (labels : gmap Z pystr)
  | ModelLabels (lang : pystr) (labels : gmap Z pystr)
  | ModelLoaded (lang : pystr)
  | LoadFailed (lang model_name : pystr) (e : exn)
  | FallingBackToLexicon
  | PredictionDebug (language raw_label resolved_label lex_mood : pystr)
  | PredictionError (language : pystr) (e : exn).

(** What the loading loop keeps true, [seen] being the languages it has
    gone through. *)
Definition loaded_for (seen : list pystr) (self : TextEmotionClassifier) : Prop :=
  (∀ lang, lang ∈ dom (pipelines self) → lang ∈ seen)
  ∧ (∀ lang, lang ∈ dom (id2label self) → lang ∈ seen)
  ∧ (ustr "fa" ∈ dom (pipelines self) →
     id2label self !! ustr "fa" = Some ARMANEMO_LABELS).

(** ** service.py: result types *)

Module Service.

Record PredictionResult : Type := {
  label : pystr;
  mood : pystr;
  source : pystr;
}.

Record ServiceResult : Type := {
  language : pystr;
  prediction : PredictionResult;
  recommendations : list (gmap pystr pystr);
}.

Record MoodService : Type := {
  lang_detector : pystr → option pystr;
  classifier : TextEmotionClassifier;
  recommender : list (gmap pystr pystr);
}.

(** The values the source field of a prediction takes. *)
Definition SOURCES : gset pystr :=
  {[ ustr "fallback"; ustr "lexicon"; ustr "transformer";
     ustr "lexicon_override_neg"; ustr "lexicon_override_pos" ]}.

End Service.

(** ** app.py: the template context *)

Module App.

Record context : Type := {
  result : Service.ServiceResult;
  text : pystr;
  media_type : option pystr;
  response_language : option pystr;
  ui_lang : pystr;
  theme : pystr;
  stats : gmap pystr nat * gmap pystr nat;
}.

End App.

(** ** Sample data *)

Module Sample.

(** A runtime whose [str.lower] and [str.upper] know ASCII only and
    whose [int] refuses everything. *)
Definition lower (s : pystr) : pystr := PyStr.ascii_lower <$> s.
Definition upper (s : pystr) : pystr := s.
Definition int (s : pystr) : option Z := None.

(** A classifier in lexicon-only mode. *)
Definition lexicon_only : TextEmotionClassifier :=
  {| use_transformers := false; pipelines := ∅; id2label := ∅ |}.

(** A langdetect that always fails. *)
Definition no_langdetect (s : pystr) : option pystr := None.

Definition song (t m l : string) : gmap pystr pystr :=
  <[ustr "title" := ustr t]> (<[ustr "creator" := ustr "someone"]>
    (<[ustr "type" := ustr "song"]> (<[ustr "mood" := ustr m]>
      (<[ustr "language" := ustr l]> ∅)))).

(** A catalog of well-formed items. *)
Definition catalog : list (gmap pystr pystr) :=
  [ song "a" "neutral" "en"; song "b" "joy" "en"; song "c" "neutral" "fa" ].


Definition service (cat : list (gmap pystr pystr)) : Service.MoodService :=
  {| Service.lang_detector := no_langdetect;
     Service.classifier := lexicon_only;
     Service.recommender := cat |}.

(** A start-up at which transformers is there but no model loads. *)
Definition no_models : startup :=
  {| transformers_importable := true;
     _load_patched_pipeline := λ _ _, Raise ValueError |}.

(** A pipeline that finds joy in every text. *)
Definition joy_pipeline (s : pystr) : outcome (list pyval) :=
  Ok [PyList [PyDict [(ustr "label", PyStr (ustr "joy"))]]].

(** A start-up at which every model loads, with a config that carries an
    id2label table. *)
Definition all_models : startup :=
  {| transformers_importable := true;
     _load_patched_pipeline := λ _ _,
       Ok {| pipe := joy_pipeline;
             config_id2label := Some {[ 0%Z := ustr "joy" ]} |} |}.

(** A classifier in model mode whose English pipeline raises. *)
Definition broken_pipeline : TextEmotionClassifier :=
  {| use_transformers := true;
     pipelines := {[ ustr "en" := λ _, Raise ValueError ]};
     id2label := ∅ |}.

(** A standard output that takes everything. *)
Definition print_ok (m : message) : outcome unit := Ok tt.

(** A standard output that cannot encode the text of an exception, and
    takes everything else. *)
Definition print_no_exception (m : message) : outcome unit :=
  match m with
  | PredictionError _ _ | LoadFailed _ _ _ => Raise UnicodeEncodeError
  | _ => Ok tt
  end.

(** A service whose classifier has the raising pipeline. *)
Definition broken_service : Service.MoodService :=
  {| Service.lang_detector := no_langdetect;
     Service.classifier := broken_pipeline;
     Service.recommender := catalog |}.

(** The shuffle that exchanges every element with itself:
    [draw i mod (i + 1) = i]. *)
Definition keep_order (i : nat) : nat := i.

End Sample.

Section Pipeline.

#[local] Set Default Proof Using "Type".

(** [str.lower], [str.upper] and [int] of the Python runtime. [py_int]
    answers [None] where [int] raises ValueError. *)
Variable py_lower : pystr → pystr.
Variable py_upper : pystr → pystr.
Variable py_int : pystr → option Z.

(** [print], with standard output behind it. *)
Variable py_print : message → outcome unit.

(** On ASCII text [str.lower] only moves A-Z to a-z. *)
Definition lower_on_ascii : Prop :=
  ∀ s : pystr, Forall PyStr.is_ascii s → py_lower s = PyStr.ascii_lower <$> s.

(** *** mapping.py *)

Definition map_label_to_mood (language label : pystr) : pystr :=
  let label_norm := py_lower (PyStr.strip label) in
  (* 1. Direct lookup *)
  match dict_get LABEL_MAP label_norm with
  | Some val => val
  | None =>
      (* 2. Substring matching *)
      match find (λ kv : pystr * pystr, PyStr.contains kv.1 label_norm) LABEL_MAP with
      | Some kv => kv.2
      | None => ustr "neutral"
      end
  end.

(** *** emotion_classifier.py *)

Definition _resolve_label (self : TextEmotionClassifier) (label lang : pystr) : pystr :=
  if PyStr.startswith (ustr "LABEL_") (py_upper label)
     && bool_decide (is_Some (id2label self !! lang))
  then
    match py_int (PyStr.last_field 0x5F label) with
    | Some idx => default label (default ∅ (id2label self !! lang) !! idx)
    | None => label
    end
  else label.

Definition _resolve_with_lexicon (tf_label tf_mood lex_label lex_mood : pystr)
  : pystr * pystr * pystr :=
  if decide (tf_mood = lex_mood) then (tf_label, tf_mood, ustr "transformer")
  else if decide (lex_mood ∈ ({[ ustr "anger"; ustr "sadness"; ustr "fear" ]} : gset pystr)
                  ∧ tf_mood ∈ ({[ ustr "neutral"; ustr "joy"; ustr "excitement" ]} : gset pystr))
  then (lex_label, lex_mood, ustr "lexicon_override_neg")
  else if decide (lex_mood ∈ ({[ ustr "joy"; ustr "excitement" ]} : gset pystr)
                  ∧ tf_mood ∈ ({[ ustr "sadness"; ustr "anger"; ustr "fear"; ustr "neutral" ]} : gset pystr))
  then (lex_label, lex_mood, ustr "lexicon_override_pos")
  else (tf_label, tf_mood, ustr "transformer").

Definition _lexicon_label (text language : pystr) : outcome pystr :=
  let txt := py_lower text in
  let lexicon := if decide (language = ustr "fa") then PERSIAN_LEXICON else ENGLISH_LEXICON in
  let scores := (λ kv : pystr * list pystr, (kv.1, 0%nat)) <$> lexicon in
  scores ← for_each lexicon
              (λ scores '(label, keywords),
                 for_each keywords
                   (λ scores word,
                      if PyStr.contains word txt then dict_incr label scores
                      else Ok scores)
                   scores)
              scores;
  best ← max_by_value scores;
  let best_label := best.1 in
  v ← dict_getitem scores best_label;
  if (v =? 0)%nat then Ok (ustr "neutral") else Ok best_label.

Definition predict (self : TextEmotionClassifier) (text language : pystr)
  : outcome Service.PredictionResult :=
  let cleaned := PyStr.strip text in
  if negb (PyStr.truthy cleaned) then
    Ok {| Service.label := ustr "neutral"; Service.mood := ustr "neutral";
          Service.source := ustr "fallback" |}
  else
    lex_label ← _lexicon_label cleaned language;
    let lex_mood := map_label_to_mood language lex_label in
    let lexicon_only :=
      Ok {| Service.label := lex_label; Service.mood := lex_mood;
            Service.source := ustr "lexicon" |} in
    if use_transformers self then
      match pipelines self !! language with
      | Some pipe =>
          try_catch
            (outputs ← pipe cleaned;
             result ← match outputs with
                      | [] => Raise IndexError
                      | o :: _ => if is_dict o then Ok o else getitem0 o
                      end;
             let raw_label :=
               match result with
               | PyDict d => default (PyStr (ustr "neutral")) (dict_get d (ustr "label"))
               | _ => PyStr (ustr "neutral")
               end in
             match raw_label with
             | PyStr raw_label =>
                 let resolved_label := _resolve_label self raw_label language in
                 _ ← py_print (PredictionDebug language raw_label resolved_label lex_mood);
                 let mood := map_label_to_mood language resolved_label in
                 let '(chosen_label, chosen_mood, source) :=
                   _resolve_with_lexicon resolved_label mood lex_label lex_mood in
                 Ok {| Service.label := chosen_label; Service.mood := chosen_mood;
                       Service.source := source |}
             | _ => Raise AttributeError
             end)
            (λ e, _ ← py_print (PredictionError language e); lexicon_only)
      | None => lexicon_only
      end
    else lexicon_only.

(** The try block of one iteration of the loop of [_load_pipelines]: the
    state it has reached, and the exception that ended it, if any. *)
Definition load_attempt (env : startup) (self : TextEmotionClassifier)
    (lang model_name : pystr) : TextEmotionClassifier * option exn :=
  match py_print (LoadingModel lang model_name) with
  | Raise e => (self, Some e)
  | Ok _ =>
      match _load_patched_pipeline env model_name lang with
      | Raise e => (self, Some e)
      | Ok p =>
          let self :=
            {| use_transformers := use_transformers self;
               pipelines := <[lang := pipe p]> (pipelines self);
               id2label := id2label self |} in
          let labelled : TextEmotionClassifier * option exn :=
            if decide (lang = ustr "fa") then
              let self :=
                {| use_transformers := use_transformers self;
                   pipelines := pipelines self;
                   id2label := <[lang := ARMANEMO_LABELS]> (id2label self) |} in
              match py_print (AppliedManualLabels lang ARMANEMO_LABELS) with
              | Raise e => (self, Some e)
              | Ok _ => (self, None)
              end
            else
              match config_id2label p with
              | Some table =>
                  let self :=
                    {| use_transformers := use_transformers self;
                       pipelines := pipelines self;
                       id2label := <[lang := table]> (id2label self) |} in
                  match py_print (ModelLabels lang table) with
                  | Raise e => (self, Some e)
                  | Ok _ => (self, None)
                  end
              | None => (self, None)
              end in
          match labelled with
          | (self, Some e) => (self, Some e)
          | (self, None) =>
              match py_print (ModelLoaded lang) with
              | Raise e => (self, Some e)
              | Ok _ => (self, None)
              end
          end
      end
  end.

(** One iteration of the loop of [_load_pipelines], with its handler. *)
Definition load_one (env : startup) (self : TextEmotionClassifier)
    (entry : pystr * pystr) : outcome TextEmotionClassifier :=
  let '(lang, model_name) := entry in
  match load_attempt env self lang model_name with
  | (self, None) => Ok self
  | (self, Some e) =>
      _ ← py_print (LoadFailed lang model_name e);
      _ ← py_print FallingBackToLexicon;
      Ok {| use_transformers := use_transformers self;
            pipelines := delete lang (pipelines self);
            id2label := id2label self |}
  end.

Definition _load_pipelines (env : startup) (model_names : list (pystr * pystr))
    (self : TextEmotionClassifier) : outcome TextEmotionClassifier :=
  if negb (transformers_importable env) then
    _ ← py_print TransformersNotFound;
    Ok {| use_transformers := false;
          pipelines := pipelines self; id2label := id2label self |}
  else
    _ ← py_print LoadingModels;
    self ← for_each model_names (load_one env) self;
    if decide (size (pipelines self) = 0%nat) then
      Ok {| use_transformers := false;
            pipelines := pipelines self; id2label := id2label self |}
    else Ok self.

(** [TextEmotionClassifier(use_transformers, model_names)]: the state
    [__init__] leaves behind, or the exception it ends with. *)
Definition TextEmotionClassifier_init (env : startup) (use_transformers : bool)
    (model_names : option (list (pystr * pystr))) : outcome TextEmotionClassifier :=
  let model_names :=
    match model_names with
    | Some (e :: l) => e :: l
    | _ => DEFAULT_MODELS
    end in
  let self := {| use_transformers := use_transformers;
                 pipelines := ∅; id2label := ∅ |} in
  if use_transformers then _load_pipelines env model_names self else Ok self.

(** *** service.py *)

Definition analyze_and_recommend (self : Service.MoodService) (draw : nat → nat)
    (text : pystr) (media_type : option pystr) (limit : Z)
    (response_language : option pystr) : outcome Service.ServiceResult :=
  let language :=
    LanguageDetector.run (Service.lang_detector self) (LanguageDetector.detect text) in
  prediction ← predict (Service.classifier self) text language;
  recommendations ←
    Recommender.recommend (Service.recommender self) draw
      (Service.mood prediction) media_type limit response_language;
  let rec_dicts := Recommender.as_dict <$> recommendations in
  Ok {| Service.language := language; Service.prediction := prediction;
        Service.recommendations := rec_dicts |}.

(** *** app.py *)






(** *** Strings *)

Lemma lstrip_blank (s : pystr) :
  Forall (λ c, PyStr.isspace c = true) s → PyStr.lstrip s = [].
Proof.
  induction 1 as [|c s Hc _ IH]; simpl; [done|]. by rewrite Hc.
Qed.

Lemma strip_blank (s : pystr) :
  Forall (λ c, PyStr.isspace c = true) s → PyStr.strip s = [].
Proof.
  intros Hs. unfold PyStr.strip. by rewrite (lstrip_blank s Hs).
Qed.

Lemma lstrip_keeps (c : N) (s : pystr) :
  c ∈ s → PyStr.isspace c = false → c ∈ PyStr.lstrip s.
Proof.
  intros Hin Hc. induction s as [|d s IH]; simpl; [done|].
  destruct (PyStr.isspace d) eqn:Hd; [|done].
  apply elem_of_cons in Hin as [->|Hin]; [congruence | auto].
Qed.

Lemma strip_keeps (c : N) (s : pystr) :
  c ∈ s → PyStr.isspace c = false → c ∈ PyStr.strip s.
Proof.
  intros Hin Hc. unfold PyStr.strip, PyStr.rstrip.
  apply elem_of_reverse, lstrip_keeps; [|done].
  apply elem_of_reverse. by apply lstrip_keeps.
Qed.

Lemma persian_not_space (c : N) :
  0x0600 ≤ c ≤ 0x06FF → PyStr.isspace c = false.
Proof.
  intros [Hlo Hhi]. apply not_true_is_false. unfold PyStr.isspace.
  rewrite !orb_true_iff, !andb_true_iff, !N.leb_le, !N.eqb_eq. lia.
Qed.

(** *** language.py *)

(** C5: a text with at least one character in U+0600..U+06FF is
    detected as fa, and the detection is an immediate answer: the
    statistical detector is not consulted, whatever it would say. *)
Theorem detect_persian_script (text : pystr) (c : N) :
  c ∈ text → 0x0600 ≤ c ≤ 0x06FF →
  LanguageDetector.detect text = Answer (ustr "fa")
  ∧ ∀ langdetect : pystr → option pystr,
      LanguageDetector.run langdetect (LanguageDetector.detect text) = ustr "fa".
Proof.
  intros Hin Hc.
  assert (LanguageDetector.detect text = Answer (ustr "fa")) as Hd.
  { pose proof (strip_keeps c text Hin (persian_not_space c Hc)) as Hkept.
    unfold LanguageDetector.detect.
    destruct (PyStr.strip text) as [|d cleaned] eqn:Hs; [by apply elem_of_nil in Hkept|].
    simpl PyStr.truthy. cbv iota beta. simpl negb. cbv iota.
    replace (LanguageDetector._persian_pattern (d :: cleaned)) with true; [done|].
    symmetry. apply existsb_exists. exists c. split.
    - by apply list_elem_of_In.
    - destruct Hc as [Hlo Hhi].
      apply andb_true_iff. split; by apply N.leb_le. }
  split; [done|]. intros langdetect. by rewrite Hd.
Qed.

(** *** emotion_classifier.py *)

(** C4: on an empty or whitespace-only text predict returns label
    neutral, mood neutral, source fallback, for every language and every
    classifier state (model mode on or off). *)
Theorem predict_blank (self : TextEmotionClassifier) (text language : pystr) :
  Forall (λ c, PyStr.isspace c = true) text →
  predict self text language
  = Ok {| Service.label := ustr "neutral"; Service.mood := ustr "neutral";
          Service.source := ustr "fallback" |}.
Proof.
  intros Hblank. unfold predict. by rewrite (strip_blank text Hblank).
Qed.

(** C1: the resolution policy between the model's and the lexicon's
    prediction: equal moods keep the model's; a negative lexicon mood
    against a neutral or positive model mood overrides (negative); a
    positive lexicon mood against a negative or neutral model mood
    overrides (positive); every remaining case keeps the model's. *)
Theorem resolve_with_lexicon_policy (tf_label tf_mood lex_label lex_mood : pystr) :
  (tf_mood = lex_mood →
     _resolve_with_lexicon tf_label tf_mood lex_label lex_mood
     = (tf_label, tf_mood, ustr "transformer"))
  ∧ (lex_mood ∈ ({[ ustr "anger"; ustr "sadness"; ustr "fear" ]} : gset pystr) →
     tf_mood ∈ ({[ ustr "neutral"; ustr "joy"; ustr "excitement" ]} : gset pystr) →
     _resolve_with_lexicon tf_label tf_mood lex_label lex_mood
     = (lex_label, lex_mood, ustr "lexicon_override_neg"))
  ∧ (lex_mood ∈ ({[ ustr "joy"; ustr "excitement" ]} : gset pystr) →
     tf_mood ∈ ({[ ustr "sadness"; ustr "anger"; ustr "fear"; ustr "neutral" ]} : gset pystr) →
     _resolve_with_lexicon tf_label tf_mood lex_label lex_mood
     = (lex_label, lex_mood, ustr "lexicon_override_pos"))
  ∧ (tf_mood ≠ lex_mood →
     ¬ (lex_mood ∈ ({[ ustr "anger"; ustr "sadness"; ustr "fear" ]} : gset pystr)
        ∧ tf_mood ∈ ({[ ustr "neutral"; ustr "joy"; ustr "excitement" ]} : gset pystr)) →
     ¬ (lex_mood ∈ ({[ ustr "joy"; ustr "excitement" ]} : gset pystr)
        ∧ tf_mood ∈ ({[ ustr "sadness"; ustr "anger"; ustr "fear"; ustr "neutral" ]} : gset pystr)) →
     _resolve_with_lexicon tf_label tf_mood lex_label lex_mood
     = (tf_label, tf_mood, ustr "transformer")).
Proof.
  unfold _resolve_with_lexicon. repeat split.
  - intros Heq. by rewrite decide_True.
  - intros Hlex Htf.
    rewrite decide_False; [by rewrite decide_True|].
    intros <-. revert Hlex Htf.
    rewrite !elem_of_union, !elem_of_singleton.
    intros [[->| ->]| ->] [[Hx|Hx]|Hx]; vm_compute in Hx; discriminate Hx.
  - intros Hlex Htf.
    rewrite decide_False.
    + rewrite decide_False; [by rewrite decide_True|].
      intros [Hneg _]. revert Hlex Hneg.
      rewrite !elem_of_union, !elem_of_singleton.
      intros [->| ->] [[Hx|Hx]|Hx]; vm_compute in Hx; discriminate Hx.
    + intros <-. revert Hlex Htf.
      rewrite !elem_of_union, !elem_of_singleton.
      intros [->| ->] [[[Hx|Hx]|Hx]|Hx]; vm_compute in Hx; discriminate Hx.
  - intros Hne Hneg Hpos. by rewrite !decide_False.
Qed.


(** *** recommender.py *)

Lemma insert_head_perm {A} (t : list A) (j : nat) (h b : A) :
  t !! j = Some b → b :: <[j := h]> t ≡ₚ h :: t.
Proof.
  revert j. induction t as [|c t IH]; intros [|j] Hj; simplify_eq/=.
  - apply perm_swap.
  - rewrite (perm_swap c b), (IH j Hj). apply perm_swap.
Qed.

Lemma swap_perm {A} (x : list A) (i j : nat) : Recommender.swap x i j ≡ₚ x.
Proof.
  unfold Recommender.swap.
  destruct (x !! i) as [a|] eqn:Hi; [|done].
  destruct (x !! j) as [b|] eqn:Hj; [|done].
  revert i j Hi Hj. induction x as [|h t IH]; intros [|i] [|j] Hi Hj; simplify_eq/=.
  - done.
  - by apply insert_head_perm.
  - by apply insert_head_perm.
  - f_equiv. by apply IH.
Qed.

Lemma shuffle_from_perm {A} (draw : nat → nat) (i : nat) (x : list A) :
  Recommender.shuffle_from draw i x ≡ₚ x.
Proof.
  revert x. induction i as [|i IH]; intros x; simpl; [done|].
  by rewrite IH, swap_perm.
Qed.

Lemma shuffle_perm {A} (draw : nat → nat) (x : list A) :
  Recommender.shuffle draw x ≡ₚ x.
Proof. apply shuffle_from_perm. Qed.

Lemma slice_to_is_take {A} (limit : Z) (l : list A) :
  ∃ k, slice_to limit l = take k l.
Proof. unfold slice_to. destruct (limit <? 0)%Z; eauto. Qed.

Lemma slice_to_length {A} (limit : Z) (l : list A) :
  (0 ≤ limit)%Z → (Z.of_nat (length (slice_to limit l)) ≤ limit)%Z.
Proof.
  intros Hl. unfold slice_to.
  destruct (Z.ltb_spec limit 0); [lia|].
  rewrite length_take. lia.
Qed.

Lemma mapM_Ok {A B} (f : A → outcome B) (l : list A) (k : list B) :
  mapM f l = Ok k → Forall2 (λ x y, f x = Ok y) l k.
Proof.
  revert k. induction l as [|x l IH]; intros k; simpl.
  - intros [= <-]. constructor.
  - unfold mbind, outcome_bind, mret, outcome_ret.
    destruct (f x) as [y|e] eqn:Hx; [|done].
    destruct (mapM f l) as [k'|e]; [|done].
    intros [= <-]. constructor; auto.
Qed.

Lemma mapM_Raise {A B} (f : A → outcome B) (l : list A) (e : exn) :
  mapM f l = Raise e → ∃ x, x ∈ l ∧ f x = Raise e.
Proof.
  induction l as [|x l IH]; simpl; [done|].
  unfold mbind, outcome_bind, mret, outcome_ret.
  destruct (f x) as [y|e'] eqn:Hx.
  - destruct (mapM f l) as [k'|e']; [done|].
    intros [= ->]. destruct IH as (z & Hz & Hfz); [done|].
    exists z. split; [by right | done].
  - intros [= ->]. exists x. split; [left | done].
Qed.

Lemma mapM_is_ok {A B} (f : A → outcome B) (l : list A) :
  Forall (λ x, is_ok (f x)) l → is_ok (mapM f l).
Proof.
  induction 1 as [|x l Hx _ IH]; simpl; [done|].
  unfold mbind, outcome_bind, mret, outcome_ret.
  destruct (f x); [|done]. by destruct (mapM f l).
Qed.

(** The list [filtered] of [recommend], after the three filters. *)
Lemma recommend_unfold catalog draw mood media_type limit response_language :
  ∃ filtered : list (gmap pystr pystr),
    Recommender.recommend catalog draw mood media_type limit response_language
    = mapM Recommender.Recommendation_of
        (slice_to limit (Recommender.shuffle draw filtered))
    ∧ filtered ⊆+ catalog
    ∧ Forall (λ it : gmap pystr pystr,
                it !! ustr "mood"
                = Some (if decide (mood ∈ Recommender.SUPPORTED_MOODS)
                        then mood else ustr "neutral")) filtered.
Proof.
  unfold Recommender.recommend.
  set (m := if decide (mood ∈ Recommender.SUPPORTED_MOODS) then mood else ustr "neutral").
  set (f1 := filter (λ it : gmap pystr pystr, it !! ustr "mood" = Some m) catalog).
  assert (f1 ⊆+ catalog) as H1 by apply sublist_submseteq, sublist_filter.
  assert (Forall (λ it : gmap pystr pystr, it !! ustr "mood" = Some m) f1) as M1.
  { apply Forall_forall. intros it Hit. by apply list_elem_of_filter in Hit as [? _]. }
  eexists. split; [reflexivity|].
  assert (∀ (P : gmap pystr pystr → Prop) `{!∀ x, Decision (P x)} (l : list (gmap pystr pystr)),
            l ⊆+ catalog
            → Forall (λ it : gmap pystr pystr, it !! ustr "mood" = Some m) l
            → filter P l ⊆+ catalog
              ∧ Forall (λ it : gmap pystr pystr, it !! ustr "mood" = Some m) (filter P l))
    as Hstep.
  { intros P ? l Hl Ml. split.
    - etrans; [apply sublist_submseteq, sublist_filter | done].
    - rewrite Forall_forall in Ml. apply Forall_forall. intros it Hit.
      apply list_elem_of_filter in Hit as [_ Hit]. by apply Ml. }
  destruct media_type as [mt|]; [destruct (PyStr.truthy mt)|];
    destruct (decide (response_language ∈ [Some (ustr "fa"); Some (ustr "en")]));
    cbv zeta;
    repeat match goal with
           | |- context [filter ?P ?l] =>
               lazymatch goal with
               | _ : filter P l ⊆+ catalog |- _ => fail
               | _ => destruct (Hstep P _ l) as [? ?]; [done | done |]
               end
           end;
    by split.
Qed.

Lemma picks_of_filtered {A} draw limit (filtered catalog : list A) :
  filtered ⊆+ catalog →
  slice_to limit (Recommender.shuffle draw filtered) ⊆+ catalog.
Proof.
  intros Hf. destruct (slice_to_is_take limit (Recommender.shuffle draw filtered)) as [k ->].
  etrans; [apply sublist_submseteq, sublist_take|].
  by rewrite shuffle_perm.
Qed.

Lemma Recommendation_of_mood it r :
  Recommender.Recommendation_of it = Ok r → it !! ustr "mood" = Some (Recommender.mood r).
Proof.
  unfold Recommender.Recommendation_of.
  repeat (match goal with
          | |- context [match ?o with Some _ => _ | None => _ end] => destruct o
          end; [|done]).
  case_decide; [|done]. by intros [= <-].
Qed.

(** C7: for a limit N >= 0, recommend returns at most N items and each
    carries the mood asked for when that is one of the six supported
    moods, and neutral otherwise; when it raises instead, the exception
    is that of an item of the catalog that cannot be turned into a
    Recommendation. *)
Theorem recommend_limit_and_mood
    (catalog : list (gmap pystr pystr)) (draw : nat → nat) (m : pystr)
    (media_type : option pystr) (N : Z) (response_language : option pystr) :
  (0 ≤ N)%Z →
  match Recommender.recommend catalog draw m media_type N response_language with
  | Ok recs =>
      (Z.of_nat (length recs) ≤ N)%Z
      ∧ (m ∈ Recommender.SUPPORTED_MOODS →
         Forall (λ r, Recommender.mood r = m) recs)
      ∧ (m ∉ Recommender.SUPPORTED_MOODS →
         Forall (λ r, Recommender.mood r = ustr "neutral") recs)
  | Raise e =>
      ∃ it, it ∈ catalog ∧ Recommender.Recommendation_of it = Raise e
  end.
Proof.
  intros HN.
  destruct (recommend_unfold catalog draw m media_type N response_language)
    as (filtered & -> & Hsub & Hmood).
  pose proof (picks_of_filtered draw N filtered catalog Hsub) as Hpicks.
  destruct (mapM _ _) as [recs|e] eqn:Hm.
  - apply mapM_Ok in Hm.
    assert (Forall (λ r, Recommender.mood r
              = if decide (m ∈ Recommender.SUPPORTED_MOODS) then m else ustr "neutral") recs)
      as Hall.
    { assert (Forall (λ it : gmap pystr pystr,
                it !! ustr "mood"
                = Some (if decide (m ∈ Recommender.SUPPORTED_MOODS)
                        then m else ustr "neutral"))
                (slice_to N (Recommender.shuffle draw filtered))) as Hp.
      { destruct (slice_to_is_take N (Recommender.shuffle draw filtered)) as [k ->].
        apply Forall_take. by rewrite shuffle_perm. }
      clear -Hm Hp. induction Hm as [|it r l k Hr _ IH]; [constructor|].
      inversion Hp as [|? ? Hit Hl]; subst. constructor; [|by apply IH].
      apply Recommendation_of_mood in Hr. congruence. }
    split; [|split].
    + rewrite <- (Forall2_length _ _ _ Hm). by apply slice_to_length.
    + intros Hin. by rewrite decide_True in Hall.
    + intros Hout. by rewrite decide_False in Hall.
  - apply mapM_Raise in Hm as (it & Hit & Hraise).
    exists it. split; [|done].
    by eapply elem_of_submseteq.
Qed.

Lemma FIELDS_size : size Recommender.FIELDS = 5%nat.
Proof. vm_compute. reflexivity. Qed.

Lemma FIELDS_cases (k : pystr) :
  k ∈ Recommender.FIELDS ↔
  k = ustr "title" ∨ k = ustr "creator" ∨ k = ustr "type" ∨ k = ustr "mood"
  ∨ k = ustr "language".
Proof.
  clear py_upper py_lower py_int.
  unfold Recommender.FIELDS.
  rewrite !elem_of_union, !elem_of_singleton. tauto.
Qed.

Lemma Recommendation_of_fields (it : gmap pystr pystr) :
  is_ok (Recommender.Recommendation_of it) ↔ Recommender.has_exact_fields it.
Proof.
  clear py_upper py_lower py_int.
  unfold Recommender.has_exact_fields, Recommender.Recommendation_of. split.
  - destruct (it !! ustr "title") as [t|] eqn:Ht; [|done].
    destruct (it !! ustr "creator") as [c|] eqn:Hc; [|done].
    destruct (it !! ustr "type") as [ty|] eqn:Hty; [|done].
    destruct (it !! ustr "mood") as [m|] eqn:Hm; [|done].
    destruct (it !! ustr "language") as [l|] eqn:Hl; [|done].
    case_decide as Hsize; [|done]. intros _.
    symmetry. apply set_subseteq_size_eq.
    + intros k Hk. apply elem_of_dom.
      apply FIELDS_cases in Hk as [->|[->|[->|[->| ->]]]]; eauto.
    + rewrite size_dom, FIELDS_size. lia.
  - intros Hdom.
    assert (∀ k, k ∈ Recommender.FIELDS → is_Some (it !! k)) as Hk.
    { intros k Hk. apply elem_of_dom. by rewrite Hdom. }
    destruct (Hk (ustr "title")) as [t ->]; [apply FIELDS_cases; tauto|].
    destruct (Hk (ustr "creator")) as [c ->]; [apply FIELDS_cases; tauto|].
    destruct (Hk (ustr "type")) as [ty ->]; [apply FIELDS_cases; tauto|].
    destruct (Hk (ustr "mood")) as [m ->]; [apply FIELDS_cases; tauto|].
    destruct (Hk (ustr "language")) as [l ->]; [apply FIELDS_cases; tauto|].
    rewrite decide_True; [done|].
    by rewrite <- size_dom, Hdom, FIELDS_size.
Qed.

Lemma recommend_well_formed catalog draw mood media_type limit response_language :
  Forall Recommender.has_exact_fields catalog →
  is_ok (Recommender.recommend catalog draw mood media_type limit response_language).
Proof.
  intros Hwf.
  destruct (recommend_unfold catalog draw mood media_type limit response_language)
    as (filtered & -> & Hsub & _).
  apply mapM_is_ok.
  pose proof (picks_of_filtered draw limit filtered catalog Hsub) as Hpicks.
  rewrite Forall_forall in Hwf. apply Forall_forall. intros it Hit.
  apply Recommendation_of_fields, Hwf. by eapply elem_of_submseteq.
Qed.

(** C2 (amended): a responseLanguage outside fa and en is ignored, and so
    is an empty mediaType; any other mediaType, supported or not, is
    applied as an exact-match filter on the item type, which is the same
    as recommending from the catalog restricted to the items of that
    type; and no filter value makes recommend raise on a catalog whose
    items have exactly the five fields. *)
Theorem recommend_filter_values
    (catalog : list (gmap pystr pystr)) (draw : nat → nat) (mood : pystr)
    (media_type : option pystr) (limit : Z) (response_language : option pystr) :
  (response_language ∉ [Some (ustr "fa"); Some (ustr "en")] →
     Recommender.recommend catalog draw mood media_type limit response_language
     = Recommender.recommend catalog draw mood media_type limit None)
  ∧ Recommender.recommend catalog draw mood (Some []) limit response_language
    = Recommender.recommend catalog draw mood None limit response_language
  ∧ (∀ mt : pystr, mt ≠ [] →
       Recommender.recommend catalog draw mood (Some mt) limit response_language
       = Recommender.recommend
           (filter (λ it : gmap pystr pystr, it !! ustr "type" = Some mt) catalog)
           draw mood None limit response_language)
  ∧ (Forall Recommender.has_exact_fields catalog →
       is_ok (Recommender.recommend catalog draw mood media_type limit response_language)).
Proof.
  clear py_upper py_lower py_int.
  split; [|split; [|split]].
  - intros Hout. unfold Recommender.recommend.
    rewrite (decide_False (P := response_language ∈ _)) by done.
    rewrite (decide_False (P := None ∈ _)); [done|].
    intros Hin. apply elem_of_cons in Hin as [?|Hin]; [done|].
    apply elem_of_cons in Hin as [?|Hin]; [done|]. by apply elem_of_nil in Hin.
  - reflexivity.
  - intros mt Hmt. unfold Recommender.recommend.
    destruct mt as [|c mt]; [done|]. simpl PyStr.truthy. cbv iota zeta.
    rewrite !list_filter_filter.
    do 3 f_equal.
    case_decide; apply list_filter_iff; tauto.
  - apply recommend_well_formed.
Qed.

Lemma total_empty : Recommender.total ∅ = 0%nat.
Proof. unfold Recommender.total. apply map_fold_empty. Qed.

Lemma total_insert_fresh (d : gmap pystr nat) (k : pystr) (v : nat) :
  d !! k = None → Recommender.total (<[k := v]> d) = (v + Recommender.total d)%nat.
Proof.
  intros Hk. unfold Recommender.total.
  rewrite map_fold_insert_L; [done| |done]. intros. lia.
Qed.

Lemma total_lookup (d : gmap pystr nat) (k : pystr) (v : nat) :
  d !! k = Some v → Recommender.total d = (v + Recommender.total (delete k d))%nat.
Proof.
  intros Hk. unfold Recommender.total.
  rewrite (map_fold_delete_L _ _ k v d); [done| |done]. intros. lia.
Qed.

Lemma total_count (d : gmap pystr nat) (k : pystr) :
  Recommender.total (<[k := (default 0 (d !! k) + 1)%nat]> d)
  = (Recommender.total d + 1)%nat.
Proof.
  destruct (d !! k) as [v|] eqn:Hk; simpl.
  - rewrite <- insert_delete_eq, total_insert_fresh by apply lookup_delete_eq.
    rewrite (total_lookup d k v Hk). lia.
  - rewrite total_insert_fresh by done. lia.
Qed.

Lemma get_stats_from (catalog : list (gmap pystr pystr))
    (acc : gmap pystr nat * gmap pystr nat) :
  Recommender.total (foldl Recommender.count_item acc catalog).1
  = (Recommender.total acc.1 + length catalog)%nat
  ∧ Recommender.total (foldl Recommender.count_item acc catalog).2
    = (Recommender.total acc.2 + length catalog)%nat.
Proof.
  revert acc. induction catalog as [|it catalog IH]; intros acc; cbn [foldl length].
  - split; lia.
  - destruct (IH (Recommender.count_item acc it)) as [IH1 IH2].
    rewrite IH1, IH2. destruct acc as [moods languages]. simpl.
    rewrite !total_count. split; lia.
Qed.

(** C8: the per-mood counts of get_stats add up to the number of catalog
    items, and so do the per-language counts. *)
Theorem get_stats_totals (catalog : list (gmap pystr pystr)) :
  Recommender.total (Recommender.get_stats catalog).1 = length catalog
  ∧ Recommender.total (Recommender.get_stats catalog).2 = length catalog.
Proof.
  unfold Recommender.get_stats.
  destruct (get_stats_from catalog (∅, ∅)) as [H1 H2].
  rewrite H1, H2. simpl. rewrite total_empty. split; lia.
Qed.

(** *** emotion_classifier.py: the lexicon predictor *)

Lemma dict_incr_at (l : pystr) (pre post : list (pystr * nat)) (v : nat) :
  l ∉ pre.*1 →
  dict_incr l (pre ++ (l, v) :: post) = Ok (pre ++ (l, S v) :: post).
Proof.
  induction pre as [|[k w] pre IH]; simpl; intros Hl.
  - by rewrite decide_True.
  - apply not_elem_of_cons in Hl as [Hne Hl].
    rewrite decide_False by done. by rewrite (IH Hl).
Qed.

Lemma keyword_loop (txt l : pystr) (keywords : list pystr)
    (pre post : list (pystr * nat)) (v : nat) :
  l ∉ pre.*1 →
  for_each keywords
    (λ scores word,
       if PyStr.contains word txt then dict_incr l scores else Ok scores)
    (pre ++ (l, v) :: post)
  = Ok (pre ++ (l, (v + keyword_hits txt keywords)%nat) :: post).
Proof.
  intros Hl. revert v. unfold keyword_hits.
  induction keywords as [|w keywords IH]; intros v; simpl.
  - by rewrite Nat.add_0_r.
  - destruct (PyStr.contains w txt) eqn:Hw.
    + rewrite dict_incr_at by done. simpl. rewrite IH.
      rewrite filter_cons_True by done. simpl. by rewrite Nat.add_succ_r.
    + simpl. rewrite IH. rewrite filter_cons_False by congruence. done.
Qed.

Lemma lexicon_loop (txt : pystr) (lexicon : list (pystr * list pystr))
    (pre : list (pystr * nat)) :
  NoDup (pre.*1 ++ lexicon.*1) →
  for_each lexicon
    (λ scores '(label, keywords),
       for_each keywords
         (λ scores word,
            if PyStr.contains word txt then dict_incr label scores
            else Ok scores)
         scores)
    (pre ++ ((λ kv : pystr * list pystr, (kv.1, 0%nat)) <$> lexicon))
  = Ok (pre ++ ((λ kv : pystr * list pystr, (kv.1, keyword_hits txt kv.2)) <$> lexicon)).
Proof.
  revert pre. induction lexicon as [|[l kws] lexicon IH]; intros pre Hnd; simpl.
  - done.
  - rewrite keyword_loop.
    + simpl.
      rewrite (cons_middle _ pre), app_assoc. rewrite IH.
      * by rewrite <- app_assoc.
      * rewrite fmap_app, <- app_assoc. done.
    + apply NoDup_app in Hnd as (_ & Hdisj & _).
      intros Hin. apply (Hdisj l Hin). left.
Qed.

Lemma max_by_value_from_spec (best : pystr * nat) (items : list (pystr * nat)) :
  (max_by_value_from best items = best
   ∧ Forall (λ y, (y.2 ≤ best.2)%nat) items)
  ∨ (∃ i, items !! i = Some (max_by_value_from best items)
          ∧ (best.2 < (max_by_value_from best items).2)%nat
          ∧ (∀ j y, (j < i)%nat → items !! j = Some y
                    → (y.2 < (max_by_value_from best items).2)%nat)
          ∧ Forall (λ y, (y.2 ≤ (max_by_value_from best items).2)%nat) items).
Proof.
  revert best. induction items as [|x rest IH]; intros best; simpl.
  - left. split; [done | constructor].
  - destruct (Nat.ltb_spec best.2 x.2) as [Hlt|Hge].
    + right. destruct (IH x) as [[Hb Hall]|(i & Hi & Hxb & Hfirst & Hall)].
      * exists 0%nat. rewrite Hb. repeat split; [done | lia | ].
        constructor; [lia | done].
      * exists (S i). repeat split; [done | lia | | ].
        -- intros [|j] y Hj Hy; simplify_eq/=; [lia|].
           apply (Hfirst j); [lia | done].
        -- constructor; [lia | done].
    + destruct (IH best) as [[Hb Hall]|(i & Hi & Hxb & Hfirst & Hall)].
      * left. rewrite Hb. split; [done|]. constructor; [lia | done].
      * right. exists (S i). repeat split; [done | done | | ].
        -- intros [|j] y Hj Hy; simplify_eq/=; [lia|].
           apply (Hfirst j); [lia | done].
        -- constructor; [lia | done].
Qed.

Lemma max_by_value_first (x : pystr * nat) (rest : list (pystr * nat)) :
  ∃ i, (x :: rest) !! i = Some (max_by_value_from x rest)
       ∧ (∀ j y, (j < i)%nat → (x :: rest) !! j = Some y
                 → (y.2 < (max_by_value_from x rest).2)%nat)
       ∧ Forall (λ y, (y.2 ≤ (max_by_value_from x rest).2)%nat) (x :: rest).
Proof.
  destruct (max_by_value_from_spec x rest) as [[Hb Hall]|(i & Hi & Hxb & Hfirst & Hall)].
  - exists 0%nat. rewrite Hb. repeat split; [lia|].
    constructor; [lia | done].
  - exists (S i). repeat split; [done | | ].
    + intros [|j] y Hj Hy; simplify_eq/=; [lia|].
      apply (Hfirst j); [lia | done].
    + constructor; [lia | done].
Qed.

Lemma dict_get_lookup {V} (d : list (pystr * V)) (i : nat) (k : pystr) (v : V) :
  NoDup d.*1 → d !! i = Some (k, v) → dict_get d k = Some v.
Proof.
  revert i. induction d as [|[k' v'] d IH]; intros [|i] Hnd Hi; simplify_eq/=.
  - by rewrite decide_True.
  - apply NoDup_cons in Hnd as [Hk' Hnd].
    rewrite decide_False; [by apply (IH i)|].
    intros ->. apply Hk'.
    apply list_elem_of_fmap. exists (k', v). split; [done|].
    by eapply list_elem_of_lookup_2.
Qed.

Lemma lexicon_label_in (lexicon : list (pystr * list pystr)) (txt : pystr) :
  NoDup lexicon.*1 → lexicon ≠ [] →
  ∃ (i : nat) (label : pystr) (keywords : list pystr),
    lexicon !! i = Some (label, keywords)
    ∧ (∀ j l' k', lexicon !! j = Some (l', k')
                  → (keyword_hits txt k' ≤ keyword_hits txt keywords)%nat)
    ∧ (∀ j l' k', (j < i)%nat → lexicon !! j = Some (l', k')
                  → (keyword_hits txt k' < keyword_hits txt keywords)%nat)
    ∧ (scores ← for_each lexicon
                  (λ scores '(label, keywords),
                     for_each keywords
                       (λ scores word,
                          if PyStr.contains word txt then dict_incr label scores
                          else Ok scores)
                       scores)
                  ((λ kv : pystr * list pystr, (kv.1, 0%nat)) <$> lexicon);
       best ← max_by_value scores;
       v ← dict_getitem scores best.1;
       if (v =? 0)%nat then Ok (ustr "neutral") else Ok best.1)
      = Ok (if (keyword_hits txt keywords =? 0)%nat then ustr "neutral" else label).
Proof.
  intros Hnd Hne.
  pose proof (lexicon_loop txt lexicon [] Hnd) as Hloop. simpl in Hloop.
  rewrite Hloop. clear Hloop.
  set (f := λ kv : pystr * list pystr, (kv.1, keyword_hits txt kv.2)).
  destruct lexicon as [|p0 lex']; [done|]. clear Hne.
  set (lexicon := p0 :: lex') in *.
  set (counts := f <$> lexicon).
  assert (NoDup counts.*1) as Hndc.
  { unfold counts. by rewrite <- list_fmap_compose. }
  assert (∃ i, counts !! i = Some (max_by_value_from (f p0) (f <$> lex'))
               ∧ (∀ j y, (j < i)%nat → counts !! j = Some y
                         → (y.2 < (max_by_value_from (f p0) (f <$> lex')).2)%nat)
               ∧ Forall (λ y, (y.2 ≤ (max_by_value_from (f p0) (f <$> lex')).2)%nat) counts)
    as (i & Hi & Hfirst & Hall).
  { exact (max_by_value_first (f p0) (f <$> lex')). }
  assert (max_by_value counts = Ok (max_by_value_from (f p0) (f <$> lex'))) as Hmax.
  { reflexivity. }
  change (Ok counts ≫= _) with
    (best ← max_by_value counts;
     v ← dict_getitem counts best.1;
     if (v =? 0)%nat then Ok (ustr "neutral") else Ok best.1).
  rewrite Hmax. clear Hmax.
  destruct (max_by_value_from (f p0) (f <$> lex')) as [bl bv].
  change (Ok (bl, bv) ≫= _) with
    (v ← dict_getitem counts bl;
     if (v =? 0)%nat then Ok (ustr "neutral") else Ok bl).
  unfold dict_getitem. rewrite (dict_get_lookup counts i bl bv Hndc Hi).
  change (Ok bv ≫= _) with (if (bv =? 0)%nat then Ok (ustr "neutral") else Ok bl).
  pose proof Hi as Hi'.
  unfold counts in Hi'. rewrite list_lookup_fmap in Hi'.
  destruct (lexicon !! i) as [[label kws]|] eqn:Hlex; [|done].
  unfold f in Hi'. simpl in Hi'. injection Hi' as <- <-.
  exists i, label, kws. split; [done|]. split; [|split].
  - intros j l' k' Hj. rewrite Forall_forall in Hall.
    apply (Hall (l', keyword_hits txt k')).
    apply list_elem_of_fmap. exists (l', k'). split; [done|].
    by eapply list_elem_of_lookup_2.
  - intros j l' k' Hlt Hj.
    apply (Hfirst j (l', keyword_hits txt k') Hlt).
    unfold counts. by rewrite list_lookup_fmap, Hj.
  - by destruct (keyword_hits txt kws =? 0)%nat.
Qed.

Lemma lexicons_well_formed :
  (NoDup ENGLISH_LEXICON.*1 ∧ ENGLISH_LEXICON ≠ [])
  ∧ (NoDup PERSIAN_LEXICON.*1 ∧ PERSIAN_LEXICON ≠ []).
Proof.
  repeat split; try done; apply (bool_decide_unpack _); vm_compute; reflexivity.
Qed.

(** C6: the lexicon predictor returns the first mood, in the declaration
    order of the language's keyword table, whose number of keywords
    occurring in the lowercased text is maximal, and neutral when that
    maximum is zero. *)
Theorem lexicon_label_first_maximum (text language : pystr) :
  let lexicon :=
    if decide (language = ustr "fa") then PERSIAN_LEXICON else ENGLISH_LEXICON in
  let txt := py_lower text in
  ∃ (i : nat) (label : pystr) (keywords : list pystr),
    lexicon !! i = Some (label, keywords)
    ∧ (∀ j l' k', lexicon !! j = Some (l', k')
                  → (keyword_hits txt k' ≤ keyword_hits txt keywords)%nat)
    ∧ (∀ j l' k', (j < i)%nat → lexicon !! j = Some (l', k')
                  → (keyword_hits txt k' < keyword_hits txt keywords)%nat)
    ∧ _lexicon_label text language
      = Ok (if (keyword_hits txt keywords =? 0)%nat then ustr "neutral" else label).
Proof.
  intros lexicon txt. unfold _lexicon_label. fold txt. fold lexicon.
  apply lexicon_label_in; subst lexicon;
    destruct lexicons_well_formed as [[? ?] [? ?]]; by case_decide.
Qed.

(** *** mapping.py *)

Lemma dict_get_elem_of {V} (d : list (pystr * V)) k v :
  dict_get d k = Some v → (k, v) ∈ d.
Proof.
  induction d as [|[k' v'] d IH]; simpl; [done|].
  case_decide as Hk.
  - intros [= ->]. subst. left.
  - intros H. right. auto.
Qed.

Lemma LABEL_MAP_values :
  Forall (λ kv : pystr * pystr, kv.2 ∈ SUPPORTED_MOODS) LABEL_MAP.
Proof. apply (bool_decide_unpack _). vm_compute. reflexivity. Qed.

Lemma map_label_to_mood_supported language label :
  map_label_to_mood language label ∈ SUPPORTED_MOODS.
Proof.
  unfold map_label_to_mood.
  pose proof LABEL_MAP_values as Hall.
  rewrite Forall_forall in Hall.
  destruct (dict_get _ _) as [val|] eqn:Hget.
  - apply dict_get_elem_of in Hget. apply (Hall _ Hget).
  - destruct (find _ _) as [kv|] eqn:Hfind.
    + apply find_some in Hfind as [Hin _].
      apply Hall. by apply list_elem_of_In.
    + apply (bool_decide_unpack _). vm_compute. reflexivity.
Qed.

Lemma SUPPORTED_MOODS_cases (m : pystr) :
  m ∈ SUPPORTED_MOODS →
  m = ustr "joy" ∨ m = ustr "sadness" ∨ m = ustr "anger" ∨ m = ustr "fear"
  ∨ m = ustr "neutral" ∨ m = ustr "excitement".
Proof. clear py_upper py_lower py_int. unfold SUPPORTED_MOODS. set_solver. Qed.

Lemma map_label_to_mood_canonical language (m : pystr) :
  lower_on_ascii → m ∈ SUPPORTED_MOODS → map_label_to_mood language m = m.
Proof.
  intros Hlow Hm. unfold map_label_to_mood.
  apply SUPPORTED_MOODS_cases in Hm.
  destruct Hm as [->|[->|[->|[->|[->| ->]]]]];
    (match goal with
     | |- context [PyStr.strip ?s] =>
         let s' := eval vm_compute in (PyStr.strip s) in
         change (PyStr.strip s) with s';
         rewrite (Hlow s') by (apply (bool_decide_unpack _); vm_compute; reflexivity)
     end; vm_compute; reflexivity).
Qed.

(** C9: map_label_to_mood fixes each of the six canonical mood names
    and is therefore idempotent on every label, both under the stated
    behaviour of [str.lower] on ASCII text. *)
Theorem map_label_to_mood_idempotent :
  lower_on_ascii →
  (∀ language m : pystr,
      m ∈ SUPPORTED_MOODS → map_label_to_mood language m = m)
  ∧ (∀ language language' label : pystr,
        map_label_to_mood language' (map_label_to_mood language label)
        = map_label_to_mood language label).
Proof.
  intros Hlow. split.
  - intros language m Hm. by apply map_label_to_mood_canonical.
  - intros language language' label.
    apply map_label_to_mood_canonical; [done|].
    apply map_label_to_mood_supported.
Qed.

(** C10: the result of map_label_to_mood does not depend on its
    language argument. *)
Theorem map_label_to_mood_language_irrelevant (l1 l2 label : pystr) :
  map_label_to_mood l1 label = map_label_to_mood l2 label.
Proof. reflexivity. Qed.


(** *** The whole pipeline *)

Lemma lexicon_keys_supported :
  Forall (λ kv : pystr * list pystr, kv.1 ∈ SUPPORTED_MOODS) ENGLISH_LEXICON
  ∧ Forall (λ kv : pystr * list pystr, kv.1 ∈ SUPPORTED_MOODS) PERSIAN_LEXICON.
Proof. split; apply (bool_decide_unpack _); vm_compute; reflexivity. Qed.

Lemma lexicon_label_supported (text language : pystr) :
  ∃ l, _lexicon_label text language = Ok l ∧ l ∈ SUPPORTED_MOODS.
Proof.
  unfold _lexicon_label.
  set (lexicon := if decide (language = ustr "fa") then PERSIAN_LEXICON else ENGLISH_LEXICON).
  assert (NoDup lexicon.*1 ∧ lexicon ≠ []
          ∧ Forall (λ kv : pystr * list pystr, kv.1 ∈ SUPPORTED_MOODS) lexicon)
    as (Hnd & Hne & Hkeys).
  { subst lexicon. destruct lexicons_well_formed as [[? ?] [? ?]].
    destruct lexicon_keys_supported. by case_decide. }
  destruct (lexicon_label_in lexicon (py_lower text) Hnd Hne)
    as (i & label & kws & Hi & _ & _ & ->).
  eexists. split; [reflexivity|].
  destruct (keyword_hits _ _ =? 0)%nat.
  - apply (bool_decide_unpack _). vm_compute. reflexivity.
  - rewrite Forall_forall in Hkeys.
    apply (Hkeys (label, kws)). by eapply list_elem_of_lookup_2.
Qed.

Lemma resolve_with_lexicon_result (tf_label tf_mood lex_label lex_mood : pystr) :
  ∃ l m s,
    _resolve_with_lexicon tf_label tf_mood lex_label lex_mood = (l, m, s)
    ∧ ((l = tf_label ∧ m = tf_mood ∧ s = ustr "transformer")
       ∨ (l = lex_label ∧ m = lex_mood
          ∧ (s = ustr "lexicon_override_neg" ∨ s = ustr "lexicon_override_pos"))).
Proof.
  clear py_upper py_lower py_int.
  unfold _resolve_with_lexicon.
  repeat case_decide; eexists _, _, _; (split; [reflexivity|]); tauto.
Qed.

Lemma SOURCES_cases (s : pystr) :
  s = ustr "fallback" ∨ s = ustr "lexicon" ∨ s = ustr "transformer"
  ∨ s = ustr "lexicon_override_neg" ∨ s = ustr "lexicon_override_pos" →
  s ∈ Service.SOURCES.
Proof.
  clear py_upper py_lower py_int.
  unfold Service.SOURCES. rewrite !elem_of_union, !elem_of_singleton. tauto.
Qed.

(** The shapes a call of predict takes. *)
Lemma predict_cases (self : TextEmotionClassifier) (text language : pystr) :
  (PyStr.strip text = []
   ∧ predict self text language
     = Ok {| Service.label := ustr "neutral"; Service.mood := ustr "neutral";
             Service.source := ustr "fallback" |})
  ∨ (∃ lex_label,
       PyStr.strip text ≠ []
       ∧ _lexicon_label (PyStr.strip text) language = Ok lex_label
       ∧ lex_label ∈ SUPPORTED_MOODS
       ∧ (predict self text language
          = Ok {| Service.label := lex_label;
                  Service.mood := map_label_to_mood language lex_label;
                  Service.source := ustr "lexicon" |}
          ∨ (∃ pipe outputs raw_label l m s,
               use_transformers self = true
               ∧ pipelines self !! language = Some pipe
               ∧ pipe (PyStr.strip text) = Ok outputs ∧ outputs ≠ []
               ∧ _resolve_with_lexicon
                   (_resolve_label self raw_label language)
                   (map_label_to_mood language (_resolve_label self raw_label language))
                   lex_label (map_label_to_mood language lex_label) = (l, m, s)
               ∧ predict self text language
                 = Ok {| Service.label := l; Service.mood := m; Service.source := s |})
          ∨ (∃ e0 e,
               py_print (PredictionError language e0) = Raise e
               ∧ predict self text language = Raise e))).
Proof.
  unfold predict.
  destruct (PyStr.strip text) as [|c cleaned] eqn:Hs; [by left|]. right.
  simpl PyStr.truthy. cbv iota. simpl negb. cbv iota.
  destruct (lexicon_label_supported (c :: cleaned) language) as (lex_label & Hlab & Hlex).
  rewrite Hlab. exists lex_label. split; [done|]. split; [done|]. split; [done|].
  change (Ok lex_label ≫= ?k) with (k lex_label). cbv beta zeta.
  destruct (use_transformers self); [|by left].
  destruct (pipelines self !! language) as [pipe|]; [|by left].
  assert (∀ e0,
            (_ ← py_print (PredictionError language e0);
             Ok {| Service.label := lex_label;
                   Service.mood := map_label_to_mood language lex_label;
                   Service.source := ustr "lexicon" |})
            = Ok {| Service.label := lex_label;
                    Service.mood := map_label_to_mood language lex_label;
                    Service.source := ustr "lexicon" |}
            ∨ ∃ e, py_print (PredictionError language e0) = Raise e
                   ∧ (_ ← py_print (PredictionError language e0);
                      Ok {| Service.label := lex_label;
                            Service.mood := map_label_to_mood language lex_label;
                            Service.source := ustr "lexicon" |})
                     = Raise e) as Hhandler.
  { intros e0. destruct (py_print (PredictionError language e0)) as [[]|e];
      [by left | right; by exists e]. }
  assert (∀ e0 k,
            try_catch (Raise e0)
              (λ e, _ ← py_print (PredictionError language e);
                    Ok {| Service.label := lex_label;
                          Service.mood := map_label_to_mood language lex_label;
                          Service.source := ustr "lexicon" |}) = k →
            k = Ok {| Service.label := lex_label;
                      Service.mood := map_label_to_mood language lex_label;
                      Service.source := ustr "lexicon" |}
            ∨ ∃ e0 e, py_print (PredictionError language e0) = Raise e ∧ k = Raise e)
    as Hcaught.
  { intros e0 k <-. cbn [try_catch].
    destruct (Hhandler e0) as [->|(e & He & ->)]; [by left | right; eauto]. }
  destruct (pipe (c :: cleaned)) as [outputs|e0] eqn:Hpipe.
  2: { destruct (Hcaught e0 _ eq_refl) as [Hk|Hk]; [by left | by right; right]. }
  change (Ok outputs ≫= ?k) with (k outputs). cbv beta.
  destruct outputs as [|o outputs].
  { destruct (Hcaught IndexError _ eq_refl) as [Hk|Hk]; [by left | by right; right]. }
  destruct (if is_dict o then Ok o else getitem0 o) as [result|e0].
  2: { destruct (Hcaught e0 _ eq_refl) as [Hk|Hk]; [by left | by right; right]. }
  change (Ok result ≫= ?k) with (k result). cbv beta zeta.
  destruct (match result with
            | PyDict d => default (PyStr (ustr "neutral")) (dict_get d (ustr "label"))
            | _ => PyStr (ustr "neutral")
            end) as [raw_label| | |];
    try (destruct (Hcaught AttributeError _ eq_refl) as [Hk|Hk];
         [by left | by right; right]).
  destruct (py_print (PredictionDebug language raw_label
                        (_resolve_label self raw_label language)
                        (map_label_to_mood language lex_label))) as [[]|e0].
  2: { destruct (Hcaught e0 _ eq_refl) as [Hk|Hk]; [by left | by right; right]. }
  change (Ok () ≫= ?k) with (k ()). cbv beta.
  destruct (_resolve_with_lexicon _ _ _ _) as [[l m] s] eqn:Hr.
  right. left. exists pipe, (o :: outputs), raw_label, l, m, s. simpl. by repeat split.
Qed.

(** predict returns one of the six moods with one of the five sources, and
    raises only what the print of its handler raises. *)
Lemma predict_ok (self : TextEmotionClassifier) (text language : pystr) :
  match predict self text language with
  | Ok p => Service.mood p ∈ SUPPORTED_MOODS ∧ Service.source p ∈ Service.SOURCES
  | Raise e => ∃ e0, py_print (PredictionError language e0) = Raise e
  end.
Proof.
  destruct (predict_cases self text language)
    as [[_ ->]|(lex_label & _ & _ & Hsup & [->|[Hp|Hp]])]; simpl.
  - split; [apply (bool_decide_unpack _); vm_compute; reflexivity|].
    apply SOURCES_cases. tauto.
  - split; [apply map_label_to_mood_supported | apply SOURCES_cases; tauto].
  - destruct Hp as (pipe & outputs & raw & l & m & s & _ & _ & _ & _ & Hr & ->). simpl.
    destruct (resolve_with_lexicon_result
                (_resolve_label self raw language)
                (map_label_to_mood language (_resolve_label self raw language))
                lex_label (map_label_to_mood language lex_label))
      as (l' & m' & s' & Hr' & Hcases).
    rewrite Hr in Hr'. injection Hr' as <- <- <-.
    destruct Hcases as [(-> & -> & ->)|(-> & -> & Hs)];
      (split; [apply map_label_to_mood_supported | apply SOURCES_cases; tauto]).
  - destruct Hp as (e0 & e & He & ->). by exists e0.
Qed.

Lemma detect_supported (langdetect : pystr → option pystr) (text : pystr) :
  LanguageDetector.run langdetect (LanguageDetector.detect text)
  ∈ LanguageDetector.supported.
Proof.
  assert (ustr "en" ∈ LanguageDetector.supported
          ∧ ustr "fa" ∈ LanguageDetector.supported) as [Hen Hfa].
  { split; apply (bool_decide_unpack _); vm_compute; reflexivity. }
  unfold LanguageDetector.detect.
  destruct (negb _); [done|].
  destruct (LanguageDetector._persian_pattern _); [done|].
  simpl. destruct (langdetect _) as [lang|]; [|done].
  by case_decide.
Qed.

Lemma as_dict_fields (r : Recommender.Recommendation) :
  Recommender.has_exact_fields (Recommender.as_dict r).
Proof.
  unfold Recommender.has_exact_fields, Recommender.as_dict, Recommender.FIELDS.
  rewrite !dom_insert_L, dom_empty_L. set_solver.
Qed.


(** ** Further properties of the code *)

(** *** language.py *)

Lemma lstrip_suffix (c : N) (s : pystr) : c ∈ PyStr.lstrip s → c ∈ s.
Proof.
  induction s as [|d s IH]; simpl; [done|].
  destruct (PyStr.isspace d); [|done]. intros Hc. right. auto.
Qed.

Lemma strip_subset (c : N) (s : pystr) : c ∈ PyStr.strip s → c ∈ s.
Proof.
  unfold PyStr.strip, PyStr.rstrip. intros Hc.
  rewrite elem_of_reverse in Hc. apply lstrip_suffix in Hc.
  rewrite elem_of_reverse in Hc. by apply lstrip_suffix.
Qed.

Lemma persian_pattern_spec (s : pystr) :
  LanguageDetector._persian_pattern s = true ↔ ∃ c, c ∈ s ∧ 0x0600 ≤ c ≤ 0x06FF.
Proof.
  unfold LanguageDetector._persian_pattern. rewrite existsb_exists. split.
  - intros (c & Hin & Hc). apply andb_true_iff in Hc as [Hlo Hhi].
    apply N.leb_le in Hlo, Hhi. exists c. split; [by apply list_elem_of_In | lia].
  - intros (c & Hin & Hlo & Hhi). exists c. split; [by apply list_elem_of_In|].
    apply andb_true_iff. split; by apply N.leb_le.
Qed.

Lemma persian_pattern_strip (text : pystr) :
  LanguageDetector._persian_pattern (PyStr.strip text) = true
  ↔ ∃ c, c ∈ text ∧ 0x0600 ≤ c ≤ 0x06FF.
Proof.
  rewrite persian_pattern_spec. split; intros (c & Hin & Hc); exists c; (split; [|done]).
  - by apply strip_subset.
  - apply strip_keeps; [done|]. by apply persian_not_space.
Qed.

(** The detector answers fa or en whatever langdetect says or does, and a
    blank text is answered en at once, without langdetect. *)
Theorem detect_closed_set :
  (∀ (langdetect : pystr → option pystr) (text : pystr),
      LanguageDetector.run langdetect (LanguageDetector.detect text) = ustr "fa"
      ∨ LanguageDetector.run langdetect (LanguageDetector.detect text) = ustr "en")
  ∧ (∀ text : pystr,
        Forall (λ c, PyStr.isspace c = true) text →
        LanguageDetector.detect text = Answer (ustr "en")).
Proof.
  clear py_upper py_lower py_int.
  split.
  - intros langdetect text.
    pose proof (detect_supported langdetect text) as Hin.
    unfold LanguageDetector.supported in Hin.
    apply elem_of_union in Hin as [Hin|Hin]; apply elem_of_singleton in Hin; tauto.
  - intros text Hblank. unfold LanguageDetector.detect.
    by rewrite (strip_blank text Hblank).
Qed.

(** The detector says fa exactly when the text has a character of
    U+0600..U+06FF, or is not blank and langdetect says fa for the stripped
    text. *)
Theorem detect_fa_iff (langdetect : pystr → option pystr) (text : pystr) :
  LanguageDetector.run langdetect (LanguageDetector.detect text) = ustr "fa"
  ↔ (∃ c, c ∈ text ∧ 0x0600 ≤ c ≤ 0x06FF)
    ∨ (PyStr.strip text ≠ [] ∧ langdetect (PyStr.strip text) = Some (ustr "fa")).
Proof.
  rewrite <- persian_pattern_strip. unfold LanguageDetector.detect.
  destruct (PyStr.strip text) as [|d cleaned] eqn:Hs.
  - simpl. split; [intros Hx; vm_compute in Hx; discriminate Hx|].
    intros [Hx|[Hx _]]; [discriminate Hx | done].
  - simpl PyStr.truthy. cbv iota. simpl negb. cbv iota.
    destruct (LanguageDetector._persian_pattern (d :: cleaned)); [by split; auto|].
    simpl. destruct (langdetect (d :: cleaned)) as [lang|].
    + case_decide as Hsup.
      * split; [intros ->; by right | by intros [?|[_ [= ->]]]].
      * split; [intros Hx; vm_compute in Hx; discriminate Hx|].
        intros [?|[_ [= ->]]]; [done|]. exfalso. apply Hsup.
        apply (bool_decide_unpack _). vm_compute. reflexivity.
    + split; [intros Hx; vm_compute in Hx; discriminate Hx|].
      by intros [?|[_ ?]].
Qed.

(** *** mapping.py *)

Lemma lstrip_app_blank (ws l : pystr) :
  Forall (λ c, PyStr.isspace c = true) ws → PyStr.lstrip (ws ++ l) = PyStr.lstrip l.
Proof. induction 1 as [|c ws Hc _ IH]; simpl; [done|]. by rewrite Hc. Qed.

Lemma lstrip_nil_blank (l : pystr) :
  PyStr.lstrip l = [] → Forall (λ c, PyStr.isspace c = true) l.
Proof.
  induction l as [|c l IH]; simpl; [constructor|].
  destruct (PyStr.isspace c) eqn:Hc; [|done]. intros Hl. constructor; auto.
Qed.

Lemma lstrip_app_nonblank (l w : pystr) :
  PyStr.lstrip l ≠ [] → PyStr.lstrip (l ++ w) = PyStr.lstrip l ++ w.
Proof.
  induction l as [|c l IH]; simpl; [done|].
  destruct (PyStr.isspace c); [done|]. done.
Qed.

Lemma rstrip_app_blank (l ws : pystr) :
  Forall (λ c, PyStr.isspace c = true) ws → PyStr.rstrip (l ++ ws) = PyStr.rstrip l.
Proof.
  intros Hws. unfold PyStr.rstrip. rewrite reverse_app.
  rewrite lstrip_app_blank; [done|]. by apply Forall_reverse.
Qed.

Lemma strip_padding (ws1 l ws2 : pystr) :
  Forall (λ c, PyStr.isspace c = true) ws1 →
  Forall (λ c, PyStr.isspace c = true) ws2 →
  PyStr.strip (ws1 ++ l ++ ws2) = PyStr.strip l.
Proof.
  intros H1 H2. unfold PyStr.strip. rewrite lstrip_app_blank by done.
  destruct (PyStr.lstrip l) as [|c l'] eqn:Hl.
  - rewrite lstrip_blank; [done|].
    apply Forall_app. split; [by apply lstrip_nil_blank | done].
  - rewrite lstrip_app_nonblank by (by rewrite Hl).
    rewrite Hl. by apply rstrip_app_blank.
Qed.

(** Whatever the label and whatever str.lower does, the normalizer
    returns one of the six moods. *)
Theorem map_label_to_mood_closed_set (language label : pystr) :
  map_label_to_mood language label ∈ SUPPORTED_MOODS.
Proof. apply map_label_to_mood_supported. Qed.

(** Whitespace around a label does not change its mood. *)
Theorem map_label_to_mood_padding (language ws1 label ws2 : pystr) :
  Forall (λ c, PyStr.isspace c = true) ws1 →
  Forall (λ c, PyStr.isspace c = true) ws2 →
  map_label_to_mood language (ws1 ++ label ++ ws2) = map_label_to_mood language label.
Proof.
  intros H1 H2. unfold map_label_to_mood. by rewrite strip_padding.
Qed.

Lemma LABEL_MAP_scan_agrees :
  Forall (λ kv : pystr * pystr,
            match find (λ kv' : pystr * pystr, PyStr.contains kv'.1 kv.1) LABEL_MAP with
            | Some kv' => kv'.2
            | None => ustr "neutral"
            end = kv.2) LABEL_MAP.
Proof. apply (bool_decide_unpack _). vm_compute. reflexivity. Qed.

(** The direct lookup never decides differently from the substring scan:
    the mood of a label is that of the first key of LABEL_MAP, in
    declaration order, that occurs in the normalized label, and neutral
    when no key occurs. *)
Theorem map_label_to_mood_first_key (language label : pystr) :
  map_label_to_mood language label
  = match find (λ kv : pystr * pystr,
                  PyStr.contains kv.1 (py_lower (PyStr.strip label))) LABEL_MAP with
    | Some kv => kv.2
    | None => ustr "neutral"
    end.
Proof.
  unfold map_label_to_mood.
  destruct (dict_get LABEL_MAP (py_lower (PyStr.strip label))) as [val|] eqn:Hget; [|done].
  apply dict_get_elem_of in Hget.
  pose proof LABEL_MAP_scan_agrees as Hall. rewrite Forall_forall in Hall.
  pose proof (Hall _ Hget) as Hkey. cbn [fst snd] in Hkey. by rewrite Hkey.
Qed.


(** *** emotion_classifier.py *)

(** An index-style label is replaced only when everything succeeds: the
    LABEL_ prefix, a table for the language, a suffix that int accepts and
    an index the table has; in every other case the raw label is kept. *)
Theorem resolve_label_cases (self : TextEmotionClassifier) (label lang : pystr) :
  (PyStr.startswith (ustr "LABEL_") (py_upper label) = false →
     _resolve_label self label lang = label)
  ∧ (id2label self !! lang = None → _resolve_label self label lang = label)
  ∧ (py_int (PyStr.last_field 0x5F label) = None →
     _resolve_label self label lang = label)
  ∧ (∀ table idx,
       id2label self !! lang = Some table →
       py_int (PyStr.last_field 0x5F label) = Some idx →
       table !! idx = None →
       _resolve_label self label lang = label)
  ∧ (∀ table idx resolved,
       PyStr.startswith (ustr "LABEL_") (py_upper label) = true →
       id2label self !! lang = Some table →
       py_int (PyStr.last_field 0x5F label) = Some idx →
       table !! idx = Some resolved →
       _resolve_label self label lang = resolved).
Proof.
  unfold _resolve_label. repeat split.
  - by intros ->.
  - intros ->. case_bool_decide as Hsome; [by destruct Hsome|].
    by rewrite andb_false_r.
  - intros ->. by destruct (_ && _).
  - intros table idx -> -> Hidx. simpl. rewrite Hidx. by destruct (_ && _).
  - intros table idx resolved -> -> -> Hidx.
    case_bool_decide as Hsome; [|exfalso; eauto]. simpl. by rewrite Hidx.
Qed.

Ltac mood_cases :=
  repeat match goal with
         | H : _ ∈ _ ∪ _ |- _ => apply elem_of_union in H as [H|H]
         | H : _ ∈ {[ _ ]} |- _ => apply elem_of_singleton in H
         | H : _ ∧ _ |- _ => destruct H
         end;
  subst;
  try match goal with
      | H : ustr _ = ustr _ |- _ => vm_compute in H; discriminate H
      end.

(** The lexicon never overrides with neutral or with a mood outside the
    five others, never overrides a model mood of its own polarity, and
    never overrides a model mood outside the six; in all these cases the
    model's label and mood are returned with source transformer. *)
Theorem resolve_with_lexicon_keeps_model (tf_label tf_mood lex_label lex_mood : pystr) :
  (lex_mood ∉ ({[ ustr "anger"; ustr "sadness"; ustr "fear";
                  ustr "joy"; ustr "excitement" ]} : gset pystr) →
     _resolve_with_lexicon tf_label tf_mood lex_label lex_mood
     = (tf_label, tf_mood, ustr "transformer"))
  ∧ (lex_mood ∈ ({[ ustr "anger"; ustr "sadness"; ustr "fear" ]} : gset pystr) →
     tf_mood ∈ ({[ ustr "anger"; ustr "sadness"; ustr "fear" ]} : gset pystr) →
     _resolve_with_lexicon tf_label tf_mood lex_label lex_mood
     = (tf_label, tf_mood, ustr "transformer"))
  ∧ (lex_mood ∈ ({[ ustr "joy"; ustr "excitement" ]} : gset pystr) →
     tf_mood ∈ ({[ ustr "joy"; ustr "excitement" ]} : gset pystr) →
     _resolve_with_lexicon tf_label tf_mood lex_label lex_mood
     = (tf_label, tf_mood, ustr "transformer"))
  ∧ (tf_mood ∉ SUPPORTED_MOODS →
     _resolve_with_lexicon tf_label tf_mood lex_label lex_mood
     = (tf_label, tf_mood, ustr "transformer")).
Proof.
  clear py_lower py_upper py_int.
  unfold _resolve_with_lexicon, SUPPORTED_MOODS. repeat split.
  - intros Hout. repeat case_decide; try done; exfalso; apply Hout; mood_cases;
      rewrite !elem_of_union, !elem_of_singleton; tauto.
  - intros Hlex Htf. repeat case_decide; try done; exfalso; mood_cases.
  - intros Hlex Htf. repeat case_decide; try done; exfalso; mood_cases.
  - intros Hout. repeat case_decide; try done; exfalso; apply Hout; mood_cases;
      rewrite !elem_of_union, !elem_of_singleton; tauto.
Qed.

Lemma keyword_hits_none (txt : pystr) (keywords : list pystr) :
  Forall (λ w, PyStr.contains w txt = false) keywords → keyword_hits txt keywords = 0%nat.
Proof.
  unfold keyword_hits. induction 1 as [|w kws Hw _ IH]; [done|].
  rewrite filter_cons_False by congruence. done.
Qed.

(** The lexicon predictor never raises (its table lookups and its max
    cannot fail), its label is one of the six moods, and a text in which
    no keyword of the language's table occurs is labelled neutral. *)
Theorem lexicon_label_total (text language : pystr) :
  ∃ l, _lexicon_label text language = Ok l
       ∧ l ∈ SUPPORTED_MOODS
       ∧ (Forall (λ kv : pystr * list pystr,
                    Forall (λ w, PyStr.contains w (py_lower text) = false) kv.2)
            (if decide (language = ustr "fa") then PERSIAN_LEXICON else ENGLISH_LEXICON)
          → l = ustr "neutral").
Proof.
  destruct (lexicon_label_supported text language) as (l & Hl & Hsup).
  exists l. split; [done|]. split; [done|].
  intros Hnone. revert Hl. unfold _lexicon_label.
  set (lexicon := if decide (language = ustr "fa") then PERSIAN_LEXICON else ENGLISH_LEXICON) in *.
  assert (NoDup lexicon.*1 ∧ lexicon ≠ []) as (Hnd & Hne).
  { subst lexicon. destruct lexicons_well_formed as [[? ?] [? ?]]. by case_decide. }
  destruct (lexicon_label_in lexicon (py_lower text) Hnd Hne)
    as (i & label & kws & Hi & _ & _ & ->).
  rewrite Forall_forall in Hnone.
  rewrite (keyword_hits_none (py_lower text) kws).
  - by intros [= <-].
  - apply (Hnone (label, kws)). by eapply list_elem_of_lookup_2.
Qed.

(** Whatever the pipeline returns or raises is caught: predict returns
    one of the six moods with one of the five sources, and the one way it
    raises is that the print in its exception handler raises; when that
    print succeeds, predict does not raise. *)
Theorem predict_raises_only_from_handler
    (self : TextEmotionClassifier) (text language : pystr) :
  match predict self text language with
  | Ok p => Service.mood p ∈ SUPPORTED_MOODS ∧ Service.source p ∈ Service.SOURCES
  | Raise e => ∃ e0, py_print (PredictionError language e0) = Raise e
  end
  ∧ ((∀ e0, is_ok (py_print (PredictionError language e0))) →
     is_ok (predict self text language)).
Proof.
  pose proof (predict_ok self text language) as Hp. split; [done|].
  intros Hprint. destruct (predict self text language) as [p|e]; [done|].
  destruct Hp as (e0 & He). specialize (Hprint e0). by rewrite He in Hprint.
Qed.

(** On a text that is not blank, predict returns the lexicon's
    prediction with source lexicon when model mode is off and when the
    language has no pipeline; and also when the pipeline raises or returns
    an empty list, provided the handler's print of that exception
    succeeds. *)
Theorem predict_falls_back_to_lexicon
    (self : TextEmotionClassifier) (text language : pystr) :
  PyStr.strip text ≠ [] →
  use_transformers self = false
  ∨ pipelines self !! language = None
  ∨ (∃ pipe, pipelines self !! language = Some pipe
             ∧ ((∃ e0, pipe (PyStr.strip text) = Raise e0
                       ∧ py_print (PredictionError language e0) = Ok ())
                ∨ (pipe (PyStr.strip text) = Ok []
                   ∧ py_print (PredictionError language IndexError) = Ok ()))) →
  ∃ lex_label,
    _lexicon_label (PyStr.strip text) language = Ok lex_label
    ∧ predict self text language
      = Ok {| Service.label := lex_label;
              Service.mood := map_label_to_mood language lex_label;
              Service.source := ustr "lexicon" |}.
Proof.
  intros Hs Hoff.
  destruct (lexicon_label_supported (PyStr.strip text) language) as (lex_label & Hlab & _).
  exists lex_label. split; [done|]. unfold predict.
  remember (PyStr.strip text) as cleaned eqn:Hc.
  destruct cleaned as [|c cleaned]; [done|].
  simpl PyStr.truthy. cbv iota. simpl negb. cbv iota.
  rewrite Hlab. change (Ok lex_label ≫= ?k) with (k lex_label). cbv beta zeta.
  destruct Hoff as [->|[Hoff|(pipe & -> & [(e0 & -> & Hpr)|[-> Hpr]])]].
  - done.
  - rewrite Hoff. by destruct (use_transformers self).
  - destruct (use_transformers self); [|done].
    cbn [mbind outcome_bind try_catch]. by rewrite Hpr.
  - destruct (use_transformers self); [|done].
    cbn [mbind outcome_bind try_catch]. by rewrite Hpr.
Qed.

(** A prediction's mood is always the normalization of its own label; and
    unless the model's label was accepted (source transformer) the label is
    itself one of the six moods and equals the mood. Both under the stated
    behaviour of str.lower on ASCII text. *)
Theorem predict_label_and_mood (self : TextEmotionClassifier) (text language : pystr) :
  lower_on_ascii →
  match predict self text language with
  | Ok p =>
      Service.mood p = map_label_to_mood language (Service.label p)
      ∧ (Service.source p ≠ ustr "transformer" →
         Service.label p = Service.mood p ∧ Service.label p ∈ SUPPORTED_MOODS)
  | Raise e => ∃ e0, py_print (PredictionError language e0) = Raise e
  end.
Proof.
  intros Hlow.
  assert (∀ m : pystr, m ∈ SUPPORTED_MOODS → map_label_to_mood language m = m) as Hfix.
  { intros m Hm. by apply map_label_to_mood_canonical. }
  assert (ustr "neutral" ∈ SUPPORTED_MOODS) as Hneutral.
  { apply (bool_decide_unpack _). vm_compute. reflexivity. }
  destruct (predict_cases self text language)
    as [[_ ->]|(lex_label & _ & _ & Hsup & [->|[Hp'|Hp']])].
  - simpl. rewrite (Hfix _ Hneutral). by repeat split.
  - simpl. rewrite (Hfix _ Hsup). by repeat split.
  - destruct Hp' as (pipe & outputs & raw & l & m & s & _ & _ & _ & _ & Hr & ->).
    simpl.
    destruct (resolve_with_lexicon_result
                (_resolve_label self raw language)
                (map_label_to_mood language (_resolve_label self raw language))
                lex_label (map_label_to_mood language lex_label))
      as (l' & m' & s' & Hr' & Hcases).
    rewrite Hr in Hr'. injection Hr' as <- <- <-.
    destruct Hcases as [(-> & -> & ->)|(-> & -> & _)].
    + split; [done|]. by intros [].
    + rewrite (Hfix _ Hsup). by repeat split.
  - destruct Hp' as (e0 & e & He & ->). by exists e0.
Qed.

Lemma Recommendation_of_as_dict (it : gmap pystr pystr) (r : Recommender.Recommendation) :
  Recommender.Recommendation_of it = Ok r → Recommender.as_dict r = it.
Proof.
  intros Hr.
  assert (Recommender.has_exact_fields it) as Hdom.
  { apply Recommendation_of_fields. by rewrite Hr. }
  revert Hr. unfold Recommender.Recommendation_of.
  destruct (it !! ustr "title") as [t|] eqn:Ht; [|done].
  destruct (it !! ustr "creator") as [c|] eqn:Hc; [|done].
  destruct (it !! ustr "type") as [ty|] eqn:Hty; [|done].
  destruct (it !! ustr "mood") as [m|] eqn:Hm; [|done].
  destruct (it !! ustr "language") as [l|] eqn:Hl; [|done].
  case_decide; [|done]. intros [= <-].
  apply map_eq. intros k. unfold Recommender.as_dict. simpl.
  rewrite !lookup_insert.
  repeat (case_decide; [by subst|]).
  rewrite lookup_empty. symmetry. apply not_elem_of_dom.
  rewrite Hdom, FIELDS_cases. intros [?|[?|[?|[?|?]]]]; by subst.
Qed.

Lemma Recommendation_of_raise (it : gmap pystr pystr) (e : exn) :
  Recommender.Recommendation_of it = Raise e →
  e = TypeError ∧ ¬ Recommender.has_exact_fields it.
Proof.
  intros Hr. split.
  - revert Hr. unfold Recommender.Recommendation_of.
    repeat match goal with
           | |- context [match ?o with Some _ => _ | None => _ end] => destruct o
           end; try case_decide; congruence.
  - intros Hwf. apply Recommendation_of_fields in Hwf. by rewrite Hr in Hwf.
Qed.

(** An item becomes a Recommendation exactly when its keys are the five
    fields, the only exception is TypeError, and the dictionary of the
    Recommendation is the item again; conversely every Recommendation is
    rebuilt from its dictionary. *)
Theorem Recommendation_round_trip :
  (∀ it : gmap pystr pystr,
      is_ok (Recommender.Recommendation_of it) ↔ dom it = Recommender.FIELDS)
  ∧ (∀ (it : gmap pystr pystr) e,
        Recommender.Recommendation_of it = Raise e → e = TypeError)
  ∧ (∀ (it : gmap pystr pystr) r,
        Recommender.Recommendation_of it = Ok r → Recommender.as_dict r = it)
  ∧ (∀ r, Recommender.Recommendation_of (Recommender.as_dict r) = Ok r).
Proof.
  split; [|split; [|split]].
  - apply Recommendation_of_fields.
  - intros it e He. by apply Recommendation_of_raise in He as [-> _].
  - apply Recommendation_of_as_dict.
  - intros [t c ty m l].
    pose proof (as_dict_fields (Recommender.Build_Recommendation t c ty m l)) as Hwf.
    apply Recommendation_of_fields in Hwf.
    destruct (Recommender.Recommendation_of _) as [r|] eqn:Hr; [|done].
    f_equal. apply Recommendation_of_as_dict in Hr.
    assert (∀ k, Recommender.as_dict r !! k
                 = Recommender.as_dict (Recommender.Build_Recommendation t c ty m l) !! k)
      as Hk by (by rewrite Hr).
    destruct r as [t' c' ty' m' l'].
    pose proof (Hk (ustr "title")) as H1. pose proof (Hk (ustr "creator")) as H2.
    pose proof (Hk (ustr "type")) as H3. pose proof (Hk (ustr "mood")) as H4.
    pose proof (Hk (ustr "language")) as H5.
    vm_compute in H1, H2, H3, H4, H5. congruence.
Qed.

Lemma picks_are_dicts (picks : list (gmap pystr pystr))
    (recs : list Recommender.Recommendation) :
  Forall2 (λ it r, Recommender.Recommendation_of it = Ok r) picks recs →
  Recommender.as_dict <$> recs = picks.
Proof.
  induction 1 as [|it r picks recs Hr _ IH]; [done|].
  rewrite fmap_cons. by rewrite (Recommendation_of_as_dict it r Hr), IH.
Qed.

(** What recommend returns was in the catalog: the dictionaries of the
    recommendations are items of the catalog, none of them more often than
    the catalog has it. When recommend raises, it is a TypeError for an item
    of the catalog whose keys are not the five fields. *)
Theorem recommend_picks_from_catalog
    (catalog : list (gmap pystr pystr)) (draw : nat → nat) (mood : pystr)
    (media_type : option pystr) (limit : Z) (response_language : option pystr) :
  match Recommender.recommend catalog draw mood media_type limit response_language with
  | Ok recs => Recommender.as_dict <$> recs ⊆+ catalog
  | Raise e =>
      e = TypeError ∧ ∃ it, it ∈ catalog ∧ ¬ Recommender.has_exact_fields it
  end.
Proof.
  destruct (recommend_unfold catalog draw mood media_type limit response_language)
    as (filtered & -> & Hsub & _).
  pose proof (picks_of_filtered draw limit filtered catalog Hsub) as Hpicks.
  destruct (mapM _ _) as [recs|e] eqn:Hm.
  - apply mapM_Ok in Hm. by rewrite (picks_are_dicts _ _ Hm).
  - apply mapM_Raise in Hm as (it & Hit & Hraise).
    apply Recommendation_of_raise in Hraise as [-> Hbad].
    split; [done|]. exists it. split; [|done]. by eapply elem_of_submseteq.
Qed.

Lemma recommend_filtered (catalog : list (gmap pystr pystr)) (draw : nat → nat)
    (mood : pystr) (media_type : option pystr) (limit : Z)
    (response_language : option pystr) :
  Recommender.recommend catalog draw mood media_type limit response_language
  = mapM Recommender.Recommendation_of
      (slice_to limit
         (Recommender.shuffle draw
            (filter (λ it : gmap pystr pystr,
                       Recommender.matches
                         (if decide (mood ∈ Recommender.SUPPORTED_MOODS)
                          then mood else ustr "neutral")
                         media_type response_language it)
               catalog))).
Proof.
  clear py_upper py_lower py_int.
  unfold Recommender.recommend. cbv zeta. do 3 f_equal.
  unfold Recommender.matches.
  destruct media_type as [[|c mt]|]; simpl PyStr.truthy; cbv iota;
    case_decide as Hrl;
    rewrite ?list_filter_filter; apply list_filter_iff; intros it;
    rewrite !andb_True, ?orb_True, !bool_decide_spec; cbn [Is_true]; tauto.
Qed.

Lemma slice_to_length_eq {A} (limit : Z) (l : list A) :
  length (slice_to limit l)
  = if (limit <? 0)%Z then (length l - Z.to_nat (- limit))%nat
    else (Z.to_nat limit `min` length l)%nat.
Proof.
  unfold slice_to. destruct (limit <? 0)%Z; rewrite length_take; lia.
Qed.

(** On a catalog whose items have exactly the five fields, recommend
    returns items that pass the three filters, and as many as the limit
    allows: with n matching items, min(limit, n) of them for a limit >= 0,
    hence all of them when limit >= n and none when it is 0; a negative
    limit -k is not refused and leaves out k of the matching items. *)
Theorem recommend_count
    (catalog : list (gmap pystr pystr)) (draw : nat → nat) (mood : pystr)
    (media_type : option pystr) (limit : Z) (response_language : option pystr) :
  Forall Recommender.has_exact_fields catalog →
  ∃ recs,
    Recommender.recommend catalog draw mood media_type limit response_language = Ok recs
    ∧ Recommender.as_dict <$> recs
      ⊆+ filter (λ it : gmap pystr pystr,
                   Recommender.matches
                     (if decide (mood ∈ Recommender.SUPPORTED_MOODS)
                      then mood else ustr "neutral")
                     media_type response_language it) catalog
    ∧ length recs
      = let n := length (filter (λ it : gmap pystr pystr,
                                   Recommender.matches
                                     (if decide (mood ∈ Recommender.SUPPORTED_MOODS)
                                      then mood else ustr "neutral")
                                     media_type response_language it) catalog) in
        if (limit <? 0)%Z then (n - Z.to_nat (- limit))%nat
        else (Z.to_nat limit `min` n)%nat.
Proof.
  intros Hwf.
  pose proof (recommend_well_formed catalog draw mood media_type limit
                response_language Hwf) as Hok.
  rewrite recommend_filtered in *.
  set (matching := filter _ catalog) in *.
  destruct (mapM _ _) as [recs|e] eqn:Hm; [|done].
  exists recs. split; [done|].
  apply mapM_Ok in Hm. split.
  - rewrite (picks_are_dicts _ _ Hm). by apply picks_of_filtered.
  - rewrite <- (Forall2_length _ _ _ Hm), slice_to_length_eq.
    by rewrite (Permutation_length (shuffle_perm draw matching)).
Qed.

Lemma count_step (d : gmap pystr nat) (k m : pystr) :
  default 0%nat (<[k := (default 0 (d !! k) + 1)%nat]> d !! m)
  = (default 0%nat (d !! m) + if decide (k = m) then 1 else 0)%nat.
Proof.
  rewrite lookup_insert. case_decide; subst; simpl; lia.
Qed.

Lemma get_stats_counts_from (catalog : list (gmap pystr pystr))
    (acc : gmap pystr nat * gmap pystr nat) (m : pystr) :
  default 0%nat ((foldl Recommender.count_item acc catalog).1 !! m)
  = (default 0%nat (acc.1 !! m)
     + length (filter (λ it : gmap pystr pystr,
                         default (ustr "neutral") (it !! ustr "mood") = m) catalog))%nat
  ∧ default 0%nat ((foldl Recommender.count_item acc catalog).2 !! m)
    = (default 0%nat (acc.2 !! m)
       + length (filter (λ it : gmap pystr pystr,
                           default (ustr "en") (it !! ustr "language") = m) catalog))%nat.
Proof.
  revert acc. induction catalog as [|it catalog IH]; intros acc; cbn [foldl].
  - simpl. split; lia.
  - destruct (IH (Recommender.count_item acc it)) as [IH1 IH2].
    rewrite IH1, IH2. destruct acc as [moods languages]. simpl.
    rewrite !count_step, !filter_cons.
    split; repeat case_decide; simpl; lia.
Qed.

Lemma get_stats_positive_from (catalog : list (gmap pystr pystr))
    (acc : gmap pystr nat * gmap pystr nat) :
  (∀ k, acc.1 !! k ≠ Some 0%nat) → (∀ k, acc.2 !! k ≠ Some 0%nat) →
  (∀ k, (foldl Recommender.count_item acc catalog).1 !! k ≠ Some 0%nat)
  ∧ (∀ k, (foldl Recommender.count_item acc catalog).2 !! k ≠ Some 0%nat).
Proof.
  revert acc. induction catalog as [|it catalog IH]; intros acc H1 H2; cbn [foldl].
  - done.
  - apply IH; destruct acc as [moods languages]; simpl in *; intros k;
      rewrite lookup_insert; case_decide; auto; intros [= ?]; lia.
Qed.

(** get_stats counts, for each mood, the items that have it, an item
    without a mood counting as neutral, and for each language the items
    that have it, an item without a language counting as en; a mood or a
    language no item has is absent from the counters, never present with
    count 0. *)
Theorem get_stats_counts (catalog : list (gmap pystr pystr)) (k : pystr) :
  default 0%nat ((Recommender.get_stats catalog).1 !! k)
  = length (filter (λ it : gmap pystr pystr,
                      default (ustr "neutral") (it !! ustr "mood") = k) catalog)
  ∧ default 0%nat ((Recommender.get_stats catalog).2 !! k)
    = length (filter (λ it : gmap pystr pystr,
                        default (ustr "en") (it !! ustr "language") = k) catalog)
  ∧ (Recommender.get_stats catalog).1 !! k ≠ Some 0%nat
  ∧ (Recommender.get_stats catalog).2 !! k ≠ Some 0%nat.
Proof.
  unfold Recommender.get_stats.
  destruct (get_stats_counts_from catalog (∅, ∅) k) as [H1 H2].
  destruct (get_stats_positive_from catalog (∅, ∅)) as [H3 H4];
    [intros k'; simpl; by rewrite lookup_empty ..|].
  rewrite H1, H2. simpl. rewrite !lookup_empty. simpl. auto.
Qed.

(** *** service.py *)

(** What analyze_and_recommend returns belongs together: the prediction
    is that of the classifier for the detected language, and every
    recommendation is an item of the catalog whose mood is the predicted
    mood, at most limit of them for a limit >= 0. It raises in two cases
    only: a TypeError for a catalog item whose keys are not the five fields,
    and what the print in the handler of predict raises. *)
Theorem analyze_and_recommend_consistent
    (self : Service.MoodService) (draw : nat → nat) (text : pystr)
    (media_type : option pystr) (limit : Z) (response_language : option pystr) :
  match analyze_and_recommend self draw text media_type limit response_language with
  | Ok result =>
      Service.language result
      = LanguageDetector.run (Service.lang_detector self) (LanguageDetector.detect text)
      ∧ predict (Service.classifier self) text (Service.language result)
        = Ok (Service.prediction result)
      ∧ Service.recommendations result ⊆+ Service.recommender self
      ∧ Forall (λ d : gmap pystr pystr,
                  d !! ustr "mood" = Some (Service.mood (Service.prediction result)))
          (Service.recommendations result)
      ∧ ((0 ≤ limit)%Z →
         (Z.of_nat (length (Service.recommendations result)) ≤ limit)%Z)
  | Raise e =>
      (e = TypeError
       ∧ ∃ it, it ∈ Service.recommender self ∧ ¬ Recommender.has_exact_fields it)
      ∨ (∃ language e0, py_print (PredictionError language e0) = Raise e)
  end.
Proof.
  unfold analyze_and_recommend.
  set (language := LanguageDetector.run _ _).
  pose proof (predict_ok (Service.classifier self) text language) as Hpok.
  destruct (predict (Service.classifier self) text language) as [p|e] eqn:Hp.
  2: { destruct Hpok as (e0 & He). simpl. right. by exists language, e0. }
  destruct Hpok as [Hmood _].
  change (Ok p ≫= ?k) with (k p). cbv beta.
  destruct (recommend_unfold (Service.recommender self) draw (Service.mood p)
              media_type limit response_language) as (filtered & Hrec & Hsub & Hm).
  rewrite decide_True in Hm by done.
  pose proof (picks_of_filtered draw limit filtered _ Hsub) as Hpicks.
  rewrite Hrec.
  destruct (mapM _ _) as [recs|e] eqn:HmapM.
  - apply mapM_Ok in HmapM.
    change (Ok recs ≫= ?k) with (k recs). cbv beta zeta. simpl.
    rewrite (picks_are_dicts _ _ HmapM).
    split; [done|]. split; [done|]. split; [done|]. split.
    + destruct (slice_to_is_take limit (Recommender.shuffle draw filtered)) as [k ->].
      apply Forall_take. by rewrite shuffle_perm.
    + apply slice_to_length.
  - apply mapM_Raise in HmapM as (it & Hit & Hraise).
    apply Recommendation_of_raise in Hraise as [-> Hbad].
    simpl. left. split; [done|]. exists it. split; [|done]. by eapply elem_of_submseteq.
Qed.

(** *** emotion_classifier.py: start-up *)

(** Where the try block of one loading step can stop, and in what state. *)
Lemma load_attempt_result (env : startup) (self : TextEmotionClassifier)
    (lang model_name : pystr) :
  use_transformers (load_attempt env self lang model_name).1 = use_transformers self
  ∧ (((load_attempt env self lang model_name).1 = self
      ∧ ∃ e, (load_attempt env self lang model_name).2 = Some e
             ∧ (py_print (LoadingModel lang model_name) = Raise e
                ∨ _load_patched_pipeline env model_name lang = Raise e))
     ∨ (∃ p,
          pipelines (load_attempt env self lang model_name).1
          = <[lang := pipe p]> (pipelines self)
          ∧ ((id2label (load_attempt env self lang model_name).1 = id2label self
              ∧ lang ≠ ustr "fa")
             ∨ ∃ table,
                 id2label (load_attempt env self lang model_name).1
                 = <[lang := table]> (id2label self)
                 ∧ (lang = ustr "fa" → table = ARMANEMO_LABELS))
          ∧ ((load_attempt env self lang model_name).2 = None
             ∨ ∃ e m, (load_attempt env self lang model_name).2 = Some e
                      ∧ py_print m = Raise e))).
Proof using Type.
  unfold load_attempt.
  destruct (py_print (LoadingModel lang model_name)) as [[]|e] eqn:H1;
    [|split; [done|]; left; split; [done|]; eauto].
  destruct (_load_patched_pipeline env model_name lang) as [p|e] eqn:H2;
    [|split; [done|]; left; split; [done|]; eauto].
  cbv zeta.
  destruct (decide (lang = ustr "fa")) as [Hfa|Hfa].
  - destruct (py_print (AppliedManualLabels lang ARMANEMO_LABELS)) as [[]|e] eqn:H3.
    + destruct (py_print (ModelLoaded lang)) as [[]|e] eqn:H4;
        (split; [done|]); right; exists p; (split; [done|]);
        (split; [right; by exists ARMANEMO_LABELS|]); [by left | right; eauto].
    + split; [done|]. right. exists p. split; [done|].
      split; [right; by exists ARMANEMO_LABELS | right; eauto].
  - destruct (config_id2label p) as [table|].
    + destruct (py_print (ModelLabels lang table)) as [[]|e] eqn:H3.
      * destruct (py_print (ModelLoaded lang)) as [[]|e] eqn:H4;
          (split; [done|]); right; exists p; (split; [done|]);
          (split; [right; by exists table|]); [by left | right; eauto].
      * split; [done|]. right. exists p. split; [done|].
        split; [right; by exists table | right; eauto].
    + destruct (py_print (ModelLoaded lang)) as [[]|e] eqn:H4;
        (split; [done|]); right; exists p; (split; [done|]);
        (split; [by left|]); [by left | right; eauto].
Qed.

Lemma load_one_keeps (env : startup) (seen : list pystr) (self : TextEmotionClassifier)
    (lang model_name : pystr) :
  lang ∉ seen → loaded_for seen self →
  ((∀ m, py_print m = Ok ()) → dom (id2label self) ⊆ dom (pipelines self)) →
  match load_one env self (lang, model_name) with
  | Ok self' =>
      loaded_for (seen ++ [lang]) self'
      ∧ use_transformers self' = use_transformers self
      ∧ ((∀ m, py_print m = Ok ()) → dom (id2label self') ⊆ dom (pipelines self'))
  | Raise e => ∃ m, py_print m = Raise e
  end.
Proof using Type.
  clear py_upper py_lower py_int.
  intros Hnew (Hpipes & Hids & Hfa) Htables. unfold load_one.
  assert (lang ∉ dom (pipelines self)) as Hp by (intros Hin; by apply Hnew, Hpipes).
  assert (lang ∉ dom (id2label self)) as Hi by (intros Hin; by apply Hnew, Hids).
  destruct (load_attempt_result env self lang model_name) as [Hut Hcases].
  destruct (load_attempt env self lang model_name) as [self' [e|]]; simpl in *.
  - destruct (py_print (LoadFailed lang model_name e)) as [[]|e1] eqn:Hf1;
      [|simpl; eauto].
    destruct (py_print FallingBackToLexicon) as [[]|e2] eqn:Hf2; [|simpl; eauto].
    cbn [mbind outcome_bind]. unfold loaded_for. simpl.
    split; [|split; [done|]].
    + destruct Hcases as [[-> _]|(p & Hp' & Hid' & _)].
      * rewrite dom_delete_L. split; [|split].
        -- intros l Hl. apply elem_of_app. left. apply Hpipes. set_solver.
        -- intros l Hl. apply elem_of_app. left. by apply Hids.
        -- intros Hl. apply Hfa. set_solver.
      * rewrite Hp', dom_delete_L, dom_insert_L. split; [|split].
        -- intros l Hl. apply elem_of_app. left. apply Hpipes. set_solver.
        -- intros l Hl. apply elem_of_app.
           destruct Hid' as [[Heq _]|(table & Heq & _)]; rewrite Heq in Hl.
           ++ left. by apply Hids.
           ++ rewrite dom_insert_L in Hl. apply elem_of_union in Hl as [Hl|Hl].
              ** right. apply elem_of_singleton in Hl as ->. left.
              ** left. by apply Hids.
        -- intros Hl.
           assert (ustr "fa" ≠ lang ∧ ustr "fa" ∈ dom (pipelines self)) as [Hne Hold]
             by set_solver.
           destruct Hid' as [[Heq _]|(table & Heq & _)]; rewrite Heq; [by apply Hfa|].
           rewrite lookup_insert_ne by done. by apply Hfa.
    + intros Hok. destruct Hcases as [[-> _]|(p & _ & _ & [?|(e' & m & _ & Hm)])].
      * rewrite dom_delete_L. specialize (Htables Hok). set_solver.
      * done.
      * by rewrite Hok in Hm.
  - destruct Hcases as [[_ (e & ? & _)]|(p & Hp' & Hid' & _)]; [done|].
    unfold loaded_for. rewrite Hp', dom_insert_L.
    split; [split; [|split]|split; [done|]].
    + intros l Hl. apply elem_of_app. apply elem_of_union in Hl as [Hl|Hl].
      * right. apply elem_of_singleton in Hl as ->. left.
      * left. by apply Hpipes.
    + intros l Hl. apply elem_of_app.
      destruct Hid' as [[Heq _]|(table & Heq & _)]; rewrite Heq in Hl.
      * left. by apply Hids.
      * rewrite dom_insert_L in Hl. apply elem_of_union in Hl as [Hl|Hl].
        -- right. apply elem_of_singleton in Hl as ->. left.
        -- left. by apply Hids.
    + intros Hl. destruct (decide (lang = ustr "fa")) as [Heq|Hne].
      * destruct Hid' as [[_ ?]|(table & Hid & Htab)]; [done|].
        rewrite Hid, (Htab Heq), Heq. apply lookup_insert_eq.
      * assert (ustr "fa" ∈ dom (pipelines self)) as Hold by set_solver.
        destruct Hid' as [[Hid _]|(table & Hid & _)]; rewrite Hid; [by apply Hfa|].
        rewrite lookup_insert_ne by done. by apply Hfa.
    + intros Hok. specialize (Htables Hok).
      destruct Hid' as [[Hid _]|(table & Hid & _)]; rewrite Hid; [set_solver|].
      rewrite dom_insert_L. set_solver.
Qed.

Lemma load_all_keeps (env : startup) (model_names : list (pystr * pystr))
    (seen : list pystr) (self : TextEmotionClassifier) :
  NoDup (seen ++ model_names.*1) → loaded_for seen self →
  ((∀ m, py_print m = Ok ()) → dom (id2label self) ⊆ dom (pipelines self)) →
  match for_each model_names (load_one env) self with
  | Ok self' =>
      loaded_for (seen ++ model_names.*1) self'
      ∧ use_transformers self' = use_transformers self
      ∧ ((∀ m, py_print m = Ok ()) → dom (id2label self') ⊆ dom (pipelines self'))
  | Raise e => ∃ m, py_print m = Raise e
  end.
Proof using Type.
  revert seen self. induction model_names as [|[lang name] rest IH];
    intros seen self Hnd Hinv Htab; cbn [for_each fmap list_fmap].
  - rewrite app_nil_r. done.
  - simpl in Hnd.
    assert (lang ∉ seen) as Hnew.
    { apply NoDup_app in Hnd as (_ & Hdisj & _). intros Hin.
      apply (Hdisj lang Hin). left. }
    pose proof (load_one_keeps env seen self lang name Hnew Hinv Htab) as Hone.
    destruct (load_one env self (lang, name)) as [self1|e]; [|done].
    destruct Hone as (Hinv1 & Hut1 & Htab1).
    change (Ok self1 ≫= ?k) with (k self1). cbv beta.
    specialize (IH (seen ++ [lang]) self1).
    rewrite <- app_assoc in IH. specialize (IH Hnd Hinv1 Htab1).
    destruct (for_each rest (load_one env) self1) as [self2|e]; [|done].
    destruct IH as (Hinv2 & Hut2 & Htab2). simpl.
    split; [done|]. split; [congruence | done].
Qed.

(** After __init__, for model names given as a dict (no key twice): model
    mode is on only if it was asked for, transformers could be imported and
    at least one pipeline is loaded; pipelines and id2label tables are for
    languages of the model names (the default ones when none or an empty
    dict is given); a loaded Persian pipeline always comes with the
    ARMANEMO table; and when no print raised, every language with a table
    has a pipeline. __init__ raises only what one of its prints raises. *)
Theorem classifier_init_state (env : startup) (ut : bool)
    (model_names : option (list (pystr * pystr))) :
  NoDup (default [] model_names).*1 →
  match TextEmotionClassifier_init env ut model_names with
  | Ok self =>
      (use_transformers self = true →
         ut = true ∧ transformers_importable env = true
         ∧ ∃ lang, is_Some (pipelines self !! lang))
      ∧ (∀ lang,
           is_Some (pipelines self !! lang) ∨ is_Some (id2label self !! lang) →
           lang ∈ (match model_names with
                   | Some (e :: l) => e :: l
                   | _ => DEFAULT_MODELS
                   end).*1)
      ∧ (is_Some (pipelines self !! ustr "fa") →
         id2label self !! ustr "fa" = Some ARMANEMO_LABELS)
      ∧ ((∀ m, py_print m = Ok ()) → dom (id2label self) ⊆ dom (pipelines self))
  | Raise e => ∃ m, py_print m = Raise e
  end.
Proof using Type.
  intros Hnd. unfold TextEmotionClassifier_init.
  set (names := match model_names with Some (e :: l) => e :: l | _ => DEFAULT_MODELS end).
  assert (NoDup names.*1) as Hnames.
  { subst names. destruct model_names as [[|e l]|]; try done;
      apply (bool_decide_unpack _); vm_compute; reflexivity. }
  set (good := λ self : TextEmotionClassifier,
         (use_transformers self = true →
            ut = true ∧ transformers_importable env = true
            ∧ ∃ lang, is_Some (pipelines self !! lang))
         ∧ (∀ lang,
              is_Some (pipelines self !! lang) ∨ is_Some (id2label self !! lang) →
              lang ∈ names.*1)
         ∧ (is_Some (pipelines self !! ustr "fa") →
            id2label self !! ustr "fa" = Some ARMANEMO_LABELS)
         ∧ ((∀ m, py_print m = Ok ()) → dom (id2label self) ⊆ dom (pipelines self))).
  change (match (if ut
                 then _load_pipelines env names
                        {| use_transformers := ut; pipelines := ∅; id2label := ∅ |}
                 else Ok {| use_transformers := ut; pipelines := ∅; id2label := ∅ |})
          with
          | Ok self => good self
          | Raise e => ∃ m, py_print m = Raise e
          end).
  assert (good {| use_transformers := false; pipelines := ∅; id2label := ∅ |}) as Hempty.
  { unfold good. simpl. split; [done|]. split; [|split; [|done]].
    - intros lang [[? Hx]|[? Hx]]; by rewrite lookup_empty in Hx.
    - intros [? Hx]. by rewrite lookup_empty in Hx. }
  destruct ut; [|exact Hempty].
  set (self0 := {| use_transformers := true; pipelines := ∅; id2label := ∅ |}).
  unfold _load_pipelines.
  destruct (transformers_importable env) eqn:Himp; simpl.
  2: { destruct (py_print TransformersNotFound) as [[]|e] eqn:Hpr; simpl; eauto. }
  destruct (py_print LoadingModels) as [[]|e] eqn:Hpr; [|simpl; eauto].
  change (Ok () ≫= ?k) with (k ()). cbv beta.
  assert (loaded_for [] self0) as Hinv0.
  { unfold loaded_for, self0. simpl. rewrite !dom_empty_L. set_solver. }
  pose proof (load_all_keeps env names [] self0 Hnames Hinv0) as Hall.
  destruct (for_each names (load_one env) self0) as [self1|e]; [|by apply Hall].
  destruct Hall as ((Hpipes & Hids & Hfa) & Hut & Htab).
  { intros _. unfold self0. simpl. by rewrite !dom_empty_L. }
  change (Ok self1 ≫= ?k) with (k self1). cbv beta. simpl in Hpipes, Hids.
  case_decide as Hsize; unfold good; simpl.
  - split; [done|]. split; [|split; [|done]].
    + intros lang [Hl|Hl]; [apply Hpipes | apply Hids]; by apply elem_of_dom.
    + intros Hl. by apply Hfa, elem_of_dom.
  - split; [|split; [|split; [|done]]].
    + intros _. split; [done|]. split; [done|].
      destruct (map_choose (pipelines self1)) as (lang & p & Hl).
      { intros Hnone. apply Hsize. rewrite Hnone. apply map_size_empty. }
      exists lang. eauto.
    + intros lang [Hl|Hl]; [apply Hpipes | apply Hids]; by apply elem_of_dom.
    + intros Hl. by apply Hfa, elem_of_dom.
Qed.

Lemma load_one_failing (env : startup) (lang name : pystr) (ut : bool) :
  (∃ e, _load_patched_pipeline env name lang = Raise e) →
  match load_one env {| use_transformers := ut; pipelines := ∅; id2label := ∅ |}
          (lang, name) with
  | Ok self => self = {| use_transformers := ut; pipelines := ∅; id2label := ∅ |}
  | Raise e => ∃ m, py_print m = Raise e
  end.
Proof using Type.
  intros [e0 He0]. unfold load_one, load_attempt. rewrite He0.
  assert (∀ e,
            match
              (_ ← py_print (LoadFailed lang name e);
               _ ← py_print FallingBackToLexicon;
               Ok {| use_transformers := ut;
                     pipelines := delete lang
                       (∅ : gmap pystr (pystr → outcome (list pyval)));
                     id2label := ∅ |})
            with
            | Ok self => self = {| use_transformers := ut; pipelines := ∅; id2label := ∅ |}
            | Raise e => ∃ m, py_print m = Raise e
            end) as Hhandler.
  { intros e.
    destruct (py_print (LoadFailed lang name e)) as [[]|e1] eqn:H1; [|simpl; eauto].
    destruct (py_print FallingBackToLexicon) as [[]|e2] eqn:H2; [|simpl; eauto].
    cbn [mbind outcome_bind]. by rewrite delete_empty. }
  destruct (py_print (LoadingModel lang name)) as [[]|e]; simpl; apply Hhandler.
Qed.

Lemma load_all_failing (env : startup) (model_names : list (pystr * pystr)) (ut : bool) :
  (∀ model_name lang, ∃ e, _load_patched_pipeline env model_name lang = Raise e) →
  match for_each model_names (load_one env)
          {| use_transformers := ut; pipelines := ∅; id2label := ∅ |} with
  | Ok self => self = {| use_transformers := ut; pipelines := ∅; id2label := ∅ |}
  | Raise e => ∃ m, py_print m = Raise e
  end.
Proof using Type.
  intros Hfail. induction model_names as [|[lang name] rest IH]; [done|].
  cbn [for_each].
  pose proof (load_one_failing env lang name ut (Hfail name lang)) as Hone.
  destruct (load_one env _ (lang, name)) as [self1|e]; [|done].
  rewrite Hone. exact IH.
Qed.

(** When model mode is not asked for, or transformers cannot be imported,
    or no model can be loaded, __init__ leaves the lexicon-only classifier
    (model mode off, no pipeline, no table) whenever it returns; it returns
    when model mode was not asked for, and otherwise unless one of its
    prints raises. *)
Theorem classifier_init_degrades (env : startup) (ut : bool)
    (model_names : option (list (pystr * pystr))) :
  ut = false
  ∨ transformers_importable env = false
  ∨ (∀ model_name lang, ∃ e, _load_patched_pipeline env model_name lang = Raise e) →
  match TextEmotionClassifier_init env ut model_names with
  | Ok self => self = {| use_transformers := false; pipelines := ∅; id2label := ∅ |}
  | Raise e => ut = true ∧ ∃ m, py_print m = Raise e
  end
  ∧ ((∀ m, py_print m = Ok ()) →
     TextEmotionClassifier_init env ut model_names
     = Ok {| use_transformers := false; pipelines := ∅; id2label := ∅ |}).
Proof using Type.
  intros Hno.
  assert (match TextEmotionClassifier_init env ut model_names with
          | Ok self => self = {| use_transformers := false; pipelines := ∅; id2label := ∅ |}
          | Raise e => ut = true ∧ ∃ m, py_print m = Raise e
          end) as Hmain.
  { unfold TextEmotionClassifier_init, _load_pipelines.
    destruct ut; [|done].
    destruct Hno as [?|[Himp|Hfail]]; [done| |].
    - rewrite Himp. simpl.
      destruct (py_print TransformersNotFound) as [[]|e] eqn:Hpr; simpl; eauto.
    - destruct (transformers_importable env); simpl.
      + destruct (py_print LoadingModels) as [[]|e] eqn:Hpr; [|simpl; eauto].
        change (Ok () ≫= ?k) with (k ()). cbv beta.
        pose proof (load_all_failing env
                      (match model_names with
                       | Some (e :: l) => e :: l
                       | _ => DEFAULT_MODELS
                       end) true Hfail) as Hall.
        destruct (for_each _ _ _) as [self1|e]; [|simpl; eauto].
        rewrite Hall. simpl. by rewrite decide_True by apply map_size_empty.
      + destruct (py_print TransformersNotFound) as [[]|e] eqn:Hpr; simpl; eauto. }
  split; [done|]. intros Hok.
  destruct (TextEmotionClassifier_init env ut model_names) as [self|e].
  - by rewrite Hmain.
  - destruct Hmain as (_ & m & Hm). by rewrite Hok in Hm.
Qed.

(** *** app.py *)


(** *** How the parts work together *)

(** Whitespace around the text changes nothing: the detector, the
    classifier and the service see only the stripped text. *)
Theorem text_padding_ignored (self : Service.MoodService) (draw : nat → nat)
    (ws1 text ws2 language : pystr) (media_type : option pystr) (limit : Z)
    (response_language : option pystr) :
  Forall (λ c, PyStr.isspace c = true) ws1 →
  Forall (λ c, PyStr.isspace c = true) ws2 →
  LanguageDetector.detect (ws1 ++ text ++ ws2) = LanguageDetector.detect text
  ∧ predict (Service.classifier self) (ws1 ++ text ++ ws2) language
    = predict (Service.classifier self) text language
  ∧ analyze_and_recommend self draw (ws1 ++ text ++ ws2) media_type limit
      response_language
    = analyze_and_recommend self draw text media_type limit response_language.
Proof.
  intros H1 H2.
  assert (LanguageDetector.detect (ws1 ++ text ++ ws2) = LanguageDetector.detect text)
    as Hd.
  { unfold LanguageDetector.detect. by rewrite strip_padding. }
  assert (∀ lang, predict (Service.classifier self) (ws1 ++ text ++ ws2) lang
                  = predict (Service.classifier self) text lang) as Hp.
  { intros lang. unfold predict. by rewrite strip_padding. }
  split; [done|]. split; [done|].
  unfold analyze_and_recommend. by rewrite Hd, Hp.
Qed.

(** With a classifier left by __init__ when model mode is not asked for,
    transformers cannot be imported or no model can be loaded, every
    prediction comes from the lexicon: its source is fallback on a blank
    text and lexicon otherwise. *)
Theorem predict_without_models (env : startup) (ut : bool)
    (model_names : option (list (pystr * pystr))) (text language : pystr) :
  ut = false
  ∨ transformers_importable env = false
  ∨ (∀ model_name lang, ∃ e, _load_patched_pipeline env model_name lang = Raise e) →
  match TextEmotionClassifier_init env ut model_names with
  | Ok self =>
      ∃ p, predict self text language = Ok p
           ∧ Service.source p
             = (if decide (PyStr.strip text = []) then ustr "fallback" else ustr "lexicon")
  | Raise _ => True
  end.
Proof.
  intros Hno.
  assert (match TextEmotionClassifier_init env ut model_names with
          | Ok self => self = {| use_transformers := false; pipelines := ∅; id2label := ∅ |}
          | Raise e => True
          end) as Hinit.
  { clear text language.
    unfold TextEmotionClassifier_init, _load_pipelines.
    destruct ut; [|done].
    destruct Hno as [?|[Himp|Hfail]]; [done| |].
    - rewrite Himp. simpl. by destruct (py_print TransformersNotFound) as [[]|e].
    - destruct (transformers_importable env); simpl.
      + destruct (py_print LoadingModels) as [[]|e]; [|done].
        change (Ok () ≫= ?k) with (k ()). cbv beta.
        pose proof (load_all_failing env
                      (match model_names with
                       | Some (e :: l) => e :: l
                       | _ => DEFAULT_MODELS
                       end) true Hfail) as Hall.
        destruct (for_each _ _ _) as [self1|e]; [|done].
        rewrite Hall. simpl. by rewrite decide_True by apply map_size_empty.
      + by destruct (py_print TransformersNotFound) as [[]|e]. }
  destruct (TextEmotionClassifier_init env ut model_names) as [self|e]; [|done].
  subst self.
  destruct (predict_cases {| use_transformers := false; pipelines := ∅; id2label := ∅ |}
              text language) as [[Hs ->]|(lex_label & Hs & _ & _ & Hp)].
  - eexists. split; [reflexivity|]. by case_decide.
  - revert Hp. unfold predict.
    destruct (PyStr.strip text) as [|c cleaned]; [done|].
    simpl PyStr.truthy. cbv iota. simpl negb. cbv iota.
    destruct (lexicon_label_supported (c :: cleaned) language) as (l & -> & _).
    change (Ok l ≫= ?k) with (k l). cbv beta zeta. simpl. intros _.
    eexists. split; [reflexivity|]. simpl. try case_decide; done.
Qed.

(** A source other than fallback and lexicon means that model mode is on
    and the language's pipeline returned a non-empty list for the stripped
    text. *)
Theorem predict_model_sources (self : TextEmotionClassifier) (text language : pystr) :
  match predict self text language with
  | Ok p =>
      Service.source p ≠ ustr "fallback" → Service.source p ≠ ustr "lexicon" →
      use_transformers self = true
      ∧ ∃ pipe outputs,
          pipelines self !! language = Some pipe
          ∧ pipe (PyStr.strip text) = Ok outputs ∧ outputs ≠ []
  | Raise e => ∃ e0, py_print (PredictionError language e0) = Raise e
  end.
Proof.
  destruct (predict_cases self text language)
    as [[_ ->]|(lex_label & _ & _ & _ & [->|[Hp|Hp]])]; simpl; [done|done| |].
  - destruct Hp as (pipe & outputs & raw & l & m & s & Hon & Hpipe & Hout & Hne & _ & ->).
    simpl. intros _ _. split; [done|]. by exists pipe, outputs.
  - destruct Hp as (e0 & e & He & ->). by exists e0.
Qed.

(** A mood that get_stats does not list has no recommendations: when the
    mood asked for, after coercion, is absent from the mood counters,
    recommend returns the empty list, whatever the other arguments. *)
Theorem unlisted_mood_has_no_recommendations
    (catalog : list (gmap pystr pystr)) (draw : nat → nat) (mood : pystr)
    (media_type : option pystr) (limit : Z) (response_language : option pystr) :
  (Recommender.get_stats catalog).1
    !! (if decide (mood ∈ Recommender.SUPPORTED_MOODS) then mood else ustr "neutral")
  = None →
  Recommender.recommend catalog draw mood media_type limit response_language = Ok [].
Proof.
  clear py_lower py_upper py_int.
  set (m := if decide (mood ∈ Recommender.SUPPORTED_MOODS) then mood else ustr "neutral").
  intros Hnone.
  destruct (get_stats_counts_from catalog (∅, ∅) m) as [Hcount _].
  fold (Recommender.get_stats catalog) in Hcount.
  rewrite Hnone in Hcount. simpl in Hcount. rewrite lookup_empty in Hcount.
  simpl in Hcount. symmetry in Hcount. apply length_zero_iff_nil in Hcount.
  destruct (recommend_unfold catalog draw mood media_type limit response_language)
    as (filtered & -> & Hsub & Hmood).
  fold m in Hmood.
  assert (filtered = []) as ->.
  { destruct filtered as [|it filtered]; [done|]. exfalso.
    inversion Hmood as [|? ? Hit _]; subst.
    assert (it ∈ filter (λ it : gmap pystr pystr,
                           default (ustr "neutral") (it !! ustr "mood") = m) catalog)
      as Hin.
    { apply list_elem_of_filter. split; [by rewrite Hit|].
      eapply elem_of_submseteq; [|exact Hsub]. left. }
    rewrite Hcount in Hin. by apply elem_of_nil in Hin. }
  unfold Recommender.shuffle, slice_to. simpl.
  by destruct (limit <? 0)%Z; rewrite ?take_nil.
Qed.

End Pipeline.

(** ** The theorems at concrete inputs *)

Lemma sample_catalog_fields : Forall Recommender.has_exact_fields Sample.catalog.
Proof.
  repeat constructor; apply Recommendation_of_fields; vm_compute; exact I.
Qed.

Lemma detect_persian_script_witness :
  0x0633 ∈ [0x0633; 0x0644; 0x0627; 0x0645]
  ∧ 0x0600 ≤ 0x0633 ≤ 0x06FF
  ∧ LanguageDetector.detect [0x0633; 0x0644; 0x0627; 0x0645] = Answer (ustr "fa")
  ∧ ∀ langdetect : pystr → option pystr,
      LanguageDetector.run langdetect
        (LanguageDetector.detect [0x0633; 0x0644; 0x0627; 0x0645]) = ustr "fa".
Proof.
  assert (0x0633 ∈ [0x0633; 0x0644; 0x0627; 0x0645]) as Hin by left.
  assert (0x0600 ≤ 0x0633 ≤ 0x06FF) as Hc by lia.
  split; [exact Hin|]. split; [exact Hc|].
  exact (detect_persian_script [0x0633; 0x0644; 0x0627; 0x0645] 0x0633 Hin Hc).
Defined.

Lemma predict_blank_witness :
  Forall (λ c, PyStr.isspace c = true) [0x20; 0x09; 0x0A]
  ∧ predict Sample.lower Sample.upper Sample.int Sample.print_ok Sample.lexicon_only
      [0x20; 0x09; 0x0A] (ustr "en")
    = Ok {| Service.label := ustr "neutral"; Service.mood := ustr "neutral";
            Service.source := ustr "fallback" |}.
Proof.
  assert (Forall (λ c, PyStr.isspace c = true) [0x20; 0x09; 0x0A]) as Hblank
    by (repeat constructor).
  split; [exact Hblank|].
  exact (predict_blank Sample.lower Sample.upper Sample.int Sample.print_ok
           Sample.lexicon_only [0x20; 0x09; 0x0A] (ustr "en") Hblank).
Defined.

Lemma recommend_limit_and_mood_witness :
  (0 ≤ 1)%Z
  ∧ match Recommender.recommend Sample.catalog Sample.keep_order (ustr "neutral")
            None 1 None with
    | Ok recs =>
        (Z.of_nat (length recs) ≤ 1)%Z
        ∧ (ustr "neutral" ∈ Recommender.SUPPORTED_MOODS →
           Forall (λ r, Recommender.mood r = ustr "neutral") recs)
        ∧ (ustr "neutral" ∉ Recommender.SUPPORTED_MOODS →
           Forall (λ r, Recommender.mood r = ustr "neutral") recs)
    | Raise e =>
        ∃ it, it ∈ Sample.catalog ∧ Recommender.Recommendation_of it = Raise e
    end.
Proof.
  assert (0 ≤ 1)%Z as HN by lia.
  split; [exact HN|].
  exact (recommend_limit_and_mood Sample.catalog Sample.keep_order (ustr "neutral")
           None 1 None HN).
Defined.

Lemma map_label_to_mood_idempotent_witness :
  lower_on_ascii Sample.lower
  ∧ (∀ language m : pystr,
        m ∈ SUPPORTED_MOODS → map_label_to_mood Sample.lower language m = m)
  ∧ (∀ language language' label : pystr,
        map_label_to_mood Sample.lower language'
          (map_label_to_mood Sample.lower language label)
        = map_label_to_mood Sample.lower language label).
Proof.
  assert (lower_on_ascii Sample.lower) as Hlow by (intros s _; reflexivity).
  split; [exact Hlow|].
  exact (map_label_to_mood_idempotent Sample.lower Hlow).
Defined.


(** ** Where the specification and the code part *)

(** C2 as stated fails: the media type book is outside song and movie, yet
    it is applied as a filter; with it nothing is recommended from a catalog
    that has two neutral songs, without it both are. *)
Lemma recommend_unknown_media_type_filters :
  (ustr "book" ∉ [ustr "song"; ustr "movie"])
  ∧ Recommender.recommend Sample.catalog Sample.keep_order (ustr "neutral")
      (Some (ustr "book")) 6 None = Ok []
  ∧ ∃ r1 r2,
      Recommender.recommend Sample.catalog Sample.keep_order (ustr "neutral")
        None 6 None = Ok [r1; r2].
Proof.
  split; [|split].
  - intros Hin. apply (bool_decide_pack _) in Hin. vm_compute in Hin. exact Hin.
  - vm_compute. reflexivity.
  - eexists _, _. vm_compute. reflexivity.
Qed.


(** The condition on print in the amended C3 is needed: with the catalog
    of well-formed items, a pipeline that raises and a standard output that
    cannot encode the exception, analyze_and_recommend raises what print
    raised. *)
Lemma analyze_and_recommend_handler_print_raises :
  Forall Recommender.has_exact_fields (Service.recommender Sample.broken_service)
  ∧ analyze_and_recommend Sample.lower Sample.upper Sample.int
      Sample.print_no_exception Sample.broken_service Sample.keep_order
      (ustr "so sad") None 6 None
    = Raise UnicodeEncodeError.
Proof. split; [exact sample_catalog_fields | vm_compute; reflexivity]. Qed.

(** The same at start-up: when no model loads and the exception cannot be
    printed, __init__ raises where it would have left the lexicon-only
    classifier. *)
Lemma classifier_init_handler_print_raises :
  TextEmotionClassifier_init Sample.print_no_exception Sample.no_models true None
  = Raise UnicodeEncodeError.
Proof. vm_compute. reflexivity. Qed.

(** ** The further properties at concrete inputs *)

Lemma map_label_to_mood_padding_witness :
  Forall (λ c, PyStr.isspace c = true) [0x20]
  ∧ Forall (λ c, PyStr.isspace c = true) [0x0A]
  ∧ map_label_to_mood Sample.lower (ustr "en") ([0x20] ++ ustr "Happy" ++ [0x0A])
    = map_label_to_mood Sample.lower (ustr "en") (ustr "Happy").
Proof.
  assert (Forall (λ c, PyStr.isspace c = true) [0x20]) as H1 by (repeat constructor).
  assert (Forall (λ c, PyStr.isspace c = true) [0x0A]) as H2 by (repeat constructor).
  split; [exact H1|]. split; [exact H2|].
  exact (map_label_to_mood_padding Sample.lower (ustr "en") [0x20] (ustr "Happy")
           [0x0A] H1 H2).
Defined.

Lemma predict_falls_back_to_lexicon_witness :
  PyStr.strip (ustr "so sad") ≠ []
  ∧ (use_transformers Sample.broken_pipeline = false
     ∨ pipelines Sample.broken_pipeline !! ustr "en" = None
     ∨ (∃ pipe, pipelines Sample.broken_pipeline !! ustr "en" = Some pipe
                ∧ ((∃ e0, pipe (PyStr.strip (ustr "so sad")) = Raise e0
                          ∧ Sample.print_ok (PredictionError (ustr "en") e0) = Ok ())
                   ∨ (pipe (PyStr.strip (ustr "so sad")) = Ok []
                      ∧ Sample.print_ok (PredictionError (ustr "en") IndexError)
                        = Ok ()))))
  ∧ ∃ lex_label,
      _lexicon_label Sample.lower (PyStr.strip (ustr "so sad")) (ustr "en") = Ok lex_label
      ∧ predict Sample.lower Sample.upper Sample.int Sample.print_ok
          Sample.broken_pipeline (ustr "so sad") (ustr "en")
        = Ok {| Service.label := lex_label;
                Service.mood := map_label_to_mood Sample.lower (ustr "en") lex_label;
                Service.source := ustr "lexicon" |}.
Proof.
  assert (PyStr.strip (ustr "so sad") ≠ []) as Hs
    by (intros Hx; vm_compute in Hx; discriminate Hx).
  assert (use_transformers Sample.broken_pipeline = false
          ∨ pipelines Sample.broken_pipeline !! ustr "en" = None
          ∨ (∃ pipe, pipelines Sample.broken_pipeline !! ustr "en" = Some pipe
                     ∧ ((∃ e0, pipe (PyStr.strip (ustr "so sad")) = Raise e0
                               ∧ Sample.print_ok (PredictionError (ustr "en") e0) = Ok ())
                        ∨ (pipe (PyStr.strip (ustr "so sad")) = Ok []
                           ∧ Sample.print_ok (PredictionError (ustr "en") IndexError)
                             = Ok ())))) as Hraises.
  { right. right. exists (λ _, Raise ValueError). split; [reflexivity|].
    left. exists ValueError. split; reflexivity. }
  split; [exact Hs|]. split; [exact Hraises|].
  exact (predict_falls_back_to_lexicon Sample.lower Sample.upper Sample.int
           Sample.print_ok Sample.broken_pipeline (ustr "so sad") (ustr "en")
           Hs Hraises).
Defined.

Lemma predict_label_and_mood_witness :
  lower_on_ascii Sample.lower
  ∧ match predict Sample.lower Sample.upper Sample.int Sample.print_ok
            Sample.lexicon_only (ustr "so sad") (ustr "en") with
    | Ok p =>
        Service.mood p = map_label_to_mood Sample.lower (ustr "en") (Service.label p)
        ∧ (Service.source p ≠ ustr "transformer" →
           Service.label p = Service.mood p ∧ Service.label p ∈ SUPPORTED_MOODS)
    | Raise e => ∃ e0, Sample.print_ok (PredictionError (ustr "en") e0) = Raise e
    end.
Proof.
  assert (lower_on_ascii Sample.lower) as Hlow by (intros s _; reflexivity).
  split; [exact Hlow|].
  exact (predict_label_and_mood Sample.lower Sample.upper Sample.int Sample.print_ok
           Sample.lexicon_only (ustr "so sad") (ustr "en") Hlow).
Defined.

Lemma recommend_count_witness :
  Forall Recommender.has_exact_fields Sample.catalog
  ∧ ∃ recs,
      Recommender.recommend Sample.catalog Sample.keep_order (ustr "neutral")
        None (-1) None = Ok recs
      ∧ Recommender.as_dict <$> recs
        ⊆+ filter (λ it : gmap pystr pystr,
                     Recommender.matches
                       (if decide (ustr "neutral" ∈ Recommender.SUPPORTED_MOODS)
                        then ustr "neutral" else ustr "neutral")
                       None None it) Sample.catalog
      ∧ length recs
        = let n := length (filter (λ it : gmap pystr pystr,
                                     Recommender.matches
                                       (if decide (ustr "neutral" ∈ Recommender.SUPPORTED_MOODS)
                                        then ustr "neutral" else ustr "neutral")
                                       None None it) Sample.catalog) in
          if (-1 <? 0)%Z then (n - Z.to_nat (- -1))%nat
          else (Z.to_nat (-1) `min` n)%nat.
Proof.
  split; [exact sample_catalog_fields|].
  exact (recommend_count Sample.catalog Sample.keep_order (ustr "neutral")
           None (-1) None sample_catalog_fields).
Defined.

Lemma classifier_init_state_witness :
  NoDup (default [] (None : option (list (pystr * pystr)))).*1
  ∧ match TextEmotionClassifier_init Sample.print_ok Sample.all_models true None with
    | Ok self =>
        (use_transformers self = true →
           true = true ∧ transformers_importable Sample.all_models = true
           ∧ ∃ lang, is_Some (pipelines self !! lang))
        ∧ (∀ lang,
             is_Some (pipelines self !! lang) ∨ is_Some (id2label self !! lang) →
             lang ∈ DEFAULT_MODELS.*1)
        ∧ (is_Some (pipelines self !! ustr "fa") →
           id2label self !! ustr "fa" = Some ARMANEMO_LABELS)
        ∧ ((∀ m, Sample.print_ok m = Ok ()) →
           dom (id2label self) ⊆ dom (pipelines self))
    | Raise e => ∃ m, Sample.print_ok m = Raise e
    end
  ∧ ∃ self,
      TextEmotionClassifier_init Sample.print_ok Sample.all_models true None = Ok self
      ∧ use_transformers self = true
      ∧ is_Some (pipelines self !! ustr "en")
      ∧ is_Some (pipelines self !! ustr "fa")
      ∧ id2label self !! ustr "en" = Some {[ 0%Z := ustr "joy" ]}.
Proof.
  assert (NoDup (default [] (None : option (list (pystr * pystr)))).*1) as Hnd
    by constructor.
  split; [exact Hnd|]. split.
  - exact (classifier_init_state Sample.print_ok Sample.all_models true None Hnd).
  - eexists. split; [vm_compute; reflexivity|].
    split; [reflexivity|]. split; [vm_compute; eauto|].
    split; [vm_compute; eauto | vm_compute; reflexivity].
Defined.

Lemma classifier_init_degrades_witness :
  (true = false
   ∨ transformers_importable Sample.no_models = false
   ∨ (∀ model_name lang,
        ∃ e, _load_patched_pipeline Sample.no_models model_name lang = Raise e))
  ∧ match TextEmotionClassifier_init Sample.print_ok Sample.no_models true None with
    | Ok self => self = {| use_transformers := false; pipelines := ∅; id2label := ∅ |}
    | Raise e => true = true ∧ ∃ m, Sample.print_ok m = Raise e
    end
  ∧ ((∀ m, Sample.print_ok m = Ok ()) →
     TextEmotionClassifier_init Sample.print_ok Sample.no_models true None
     = Ok {| use_transformers := false; pipelines := ∅; id2label := ∅ |}).
Proof.
  assert (true = false
          ∨ transformers_importable Sample.no_models = false
          ∨ (∀ model_name lang,
               ∃ e, _load_patched_pipeline Sample.no_models model_name lang = Raise e))
    as Hno.
  { right. right. intros model_name lang. exists ValueError. reflexivity. }
  split; [exact Hno|].
  exact (classifier_init_degrades Sample.print_ok Sample.no_models true None Hno).
Defined.

Lemma text_padding_ignored_witness :
  Forall (λ c, PyStr.isspace c = true) [0x20]
  ∧ Forall (λ c, PyStr.isspace c = true) [0x0A]
  ∧ LanguageDetector.detect ([0x20] ++ ustr "so sad" ++ [0x0A])
    = LanguageDetector.detect (ustr "so sad")
  ∧ predict Sample.lower Sample.upper Sample.int Sample.print_ok
      (Service.classifier (Sample.service Sample.catalog))
      ([0x20] ++ ustr "so sad" ++ [0x0A]) (ustr "en")
    = predict Sample.lower Sample.upper Sample.int Sample.print_ok
        (Service.classifier (Sample.service Sample.catalog)) (ustr "so sad") (ustr "en")
  ∧ analyze_and_recommend Sample.lower Sample.upper Sample.int Sample.print_ok
      (Sample.service Sample.catalog) Sample.keep_order
      ([0x20] ++ ustr "so sad" ++ [0x0A]) None 6 None
    = analyze_and_recommend Sample.lower Sample.upper Sample.int Sample.print_ok
        (Sample.service Sample.catalog) Sample.keep_order (ustr "so sad") None 6 None.
Proof.
  assert (Forall (λ c, PyStr.isspace c = true) [0x20]) as H1 by (repeat constructor).
  assert (Forall (λ c, PyStr.isspace c = true) [0x0A]) as H2 by (repeat constructor).
  split; [exact H1|]. split; [exact H2|].
  exact (text_padding_ignored Sample.lower Sample.upper Sample.int Sample.print_ok
           (Sample.service Sample.catalog) Sample.keep_order
           [0x20] (ustr "so sad") [0x0A] (ustr "en") None 6 None H1 H2).
Defined.

Lemma predict_without_models_witness :
  (true = false
   ∨ transformers_importable Sample.no_models = false
   ∨ (∀ model_name lang,
        ∃ e, _load_patched_pipeline Sample.no_models model_name lang = Raise e))
  ∧ match TextEmotionClassifier_init Sample.print_ok Sample.no_models true None with
    | Ok self =>
        ∃ p,
          predict Sample.lower Sample.upper Sample.int Sample.print_ok self
            (ustr "so sad") (ustr "en") = Ok p
          ∧ Service.source p
            = (if decide (PyStr.strip (ustr "so sad") = [])
               then ustr "fallback" else ustr "lexicon")
    | Raise _ => True
    end.
Proof.
  assert (true = false
          ∨ transformers_importable Sample.no_models = false
          ∨ (∀ model_name lang,
               ∃ e, _load_patched_pipeline Sample.no_models model_name lang = Raise e))
    as Hno.
  { right. right. intros model_name lang. exists ValueError. reflexivity. }
  split; [exact Hno|].
  exact (predict_without_models Sample.lower Sample.upper Sample.int Sample.print_ok
           Sample.no_models true None (ustr "so sad") (ustr "en") Hno).
Defined.

Lemma unlisted_mood_has_no_recommendations_witness :
  (Recommender.get_stats Sample.catalog).1
    !! (if decide (ustr "anger" ∈ Recommender.SUPPORTED_MOODS)
        then ustr "anger" else ustr "neutral") = None
  ∧ Recommender.recommend Sample.catalog Sample.keep_order (ustr "anger") None 6 None
    = Ok [].
Proof.
  assert ((Recommender.get_stats Sample.catalog).1
            !! (if decide (ustr "anger" ∈ Recommender.SUPPORTED_MOODS)
                then ustr "anger" else ustr "neutral") = None) as Hnone
    by (vm_compute; reflexivity).
  split; [exact Hnone|].
  exact (unlisted_mood_has_no_recommendations Sample.catalog Sample.keep_order
           (ustr "anger") None 6 None Hnone).
Defined.
